(** * MH-Z14A CO2 sensor reader: packet codec and session controller

    A shallow embedding of [mhz14a.cpp].  The program talks to the sensor
    over a serial line in fixed nine-byte frames.  Its three parts are
    embedded in the order of the source file:

    - [rx_packet], the byte-at-a-time receive state machine;
    - [request_co2_level], [abc_off] and [set_range], the three senders;
    - [main], the start-up handshake followed by the polling loop.

    Conventions.  An [unsigned char] is a [byte] at the serial line and a [Z]
    in [0, 256) inside arithmetic, with the wrap-around of each store written
    out as [mod 256].  An [int] and a [time_t] are [Z]; no value of the
    program leaves the 32-bit range.  The serial line and the clock are
    oracles: the successive results of [read] and of [time(NULL)] are lists
    threaded through the program.  [TRACE] is the constant 0 in the source,
    so the [if (TRACE) printf(...)] statements emit nothing and are left
    out. *)

From Stdlib Require Import ZArith List Lia Bool String Ascii.
From Stdlib Require Import Init.Byte Strings.Byte.
Import ListNotations.
Open Scope Z_scope.

(** ** Packet kinds *)

(** [typedef enum {None,CO2Level,ABCOff,SetRange,Other} PacketType;]
    The enumeration lives in a module of its own so that its [None] does not
    hide the [None] of [option]. *)
Module Packet.
Inductive PacketType : Set := None | CO2Level | ABCOff | SetRange | Other.
End Packet.

Abbreviation PacketType := Packet.PacketType.
Abbreviation CO2Level := Packet.CO2Level.
Abbreviation ABCOff := Packet.ABCOff.
Abbreviation SetRange := Packet.SetRange.
Abbreviation Other := Packet.Other.

Definition PacketType_eqb (p q : PacketType) : bool :=
  match p, q with
  | Packet.None, Packet.None => true
  | CO2Level, CO2Level => true
  | ABCOff, ABCOff => true
  | SetRange, SetRange => true
  | Other, Other => true
  | _, _ => false
  end.

(** ** Bytes *)

(** The value of an [unsigned char] once promoted to [int]. *)
Definition uchar (b : byte) : Z := Z.of_N (Byte.to_N b).

(** The store of an [int] into an [unsigned char]: reduction modulo 256. *)
Definition to_uchar (z : Z) : byte :=
  match Byte.of_N (Z.to_N (z mod 256)) with
  | Some b => b
  | None => x00
  end.

(** Sum of the bytes of a frame, as an unbounded integer. *)
Definition frame_sum (f : list byte) : Z :=
  fold_right (fun b acc => uchar b + acc) 0 f.

(** The receive-side validity condition: the bytes add up to 0xFF modulo
    256. *)
Definition checksum_ok (f : list byte) : bool :=
  frame_sum f mod 256 =? 0xff.

(** ** The receive state machine *)

(** The four function-local statics of [rx_packet] together with the global
    [co2_level].  [byte3] has no initialiser in the source; a static is
    zero-initialised. *)
Record decoder : Set := mkDecoder {
  rxstate : Z;
  checksum : Z;
  byte3 : Z;
  packet : PacketType;
  co2_level : Z
}.

Definition rx_init : decoder :=
  {| rxstate := 1; checksum := 0; byte3 := 0;
     packet := Packet.None; co2_level := -1 |}.

Definition set_rxstate (v : Z) (d : decoder) : decoder :=
  {| rxstate := v; checksum := checksum d; byte3 := byte3 d;
     packet := packet d; co2_level := co2_level d |}.

Definition set_checksum (v : Z) (d : decoder) : decoder :=
  {| rxstate := rxstate d; checksum := v; byte3 := byte3 d;
     packet := packet d; co2_level := co2_level d |}.

Definition set_byte3 (v : Z) (d : decoder) : decoder :=
  {| rxstate := rxstate d; checksum := checksum d; byte3 := v;
     packet := packet d; co2_level := co2_level d |}.

Definition set_packet (v : PacketType) (d : decoder) : decoder :=
  {| rxstate := rxstate d; checksum := checksum d; byte3 := byte3 d;
     packet := v; co2_level := co2_level d |}.

Definition set_co2_level (v : Z) (d : decoder) : decoder :=
  {| rxstate := rxstate d; checksum := checksum d; byte3 := byte3 d;
     packet := packet d; co2_level := v |}.

(** The inner [switch(c)] of state 2. *)
Definition classify (c : Z) : PacketType :=
  match c with
  | 0x86 => CO2Level
  | 0x79 => ABCOff
  | 0x99 => SetRange
  | _ => Other
  end.

(** [rx_packet].  The argument [rd] is the outcome of [read(fd,&c,1)]:
    [Some c] when one byte arrived, [None] when the read timed out.  Case 4
    falls through into the shared [rxstate++] of cases 5 to 8. *)
Definition rx_packet (rd : option byte) (d : decoder) : PacketType * decoder :=
  match rd with
  | None => (Packet.None, d)
  | Some b =>
      let c := uchar b in
      let d := set_checksum ((checksum d + c) mod 256) d in
      match rxstate d with
      | 1 =>
          if c =? 0xff
          then (Packet.None, set_checksum c (set_rxstate 2 d))
          else (Packet.None, d)
      | 2 => (Packet.None, set_rxstate 3 (set_packet (classify c) d))
      | 3 => (Packet.None, set_rxstate 4 (set_byte3 c d))
      | 4 =>
          let d :=
            if PacketType_eqb (packet d) CO2Level
            then set_co2_level (256 * byte3 d + c) d
            else d in
          (Packet.None, set_rxstate (rxstate d + 1) d)
      | 5 | 6 | 7 | 8 => (Packet.None, set_rxstate (rxstate d + 1) d)
      | 9 =>
          let d := set_rxstate 1 d in
          if checksum d =? 0xff then (packet d, d) else (Packet.None, d)
      | _ => (Packet.None, d)
      end
  end.

(** Successive calls of [rx_packet], one per read outcome: the values
    returned, in order, and the decoder left behind. *)
Fixpoint rx_run (rds : list (option byte)) (d : decoder)
  : list PacketType * decoder :=
  match rds with
  | [] => ([], d)
  | rd :: rds' =>
      let (p, d1) := rx_packet rd d in
      let (ps, d2) := rx_run rds' d1 in
      (p :: ps, d2)
  end.

(** Feeding a run of bytes, every read delivering one. *)
Definition feed (bs : list byte) (d : decoder) : list PacketType * decoder :=
  rx_run (map Some bs) d.

(** ** The world of the program *)

(** A frame on the wire. *)
Definition frame : Set := list byte.

(** Everything [main] and the senders touch besides the clock: the decoder,
    the read outcomes still to come from the serial line, the [write] calls
    made so far (one entry per call, oldest first), the static buffer of
    [set_range], the integers printed with ["%d\n"] on standard output (one
    entry per line) and the messages sent to standard error. *)
Record world : Type := mkWorld {
  dec : decoder;
  link_in : list (option byte);
  link_out : list frame;
  range_buf : frame;
  stdout : list Z;
  stderr : list string
}.

Definition set_dec (v : decoder) (w : world) : world :=
  {| dec := v; link_in := link_in w; link_out := link_out w;
     range_buf := range_buf w; stdout := stdout w; stderr := stderr w |}.

Definition set_link_in (v : list (option byte)) (w : world) : world :=
  {| dec := dec w; link_in := v; link_out := link_out w;
     range_buf := range_buf w; stdout := stdout w; stderr := stderr w |}.

Definition set_range_buf (v : frame) (w : world) : world :=
  {| dec := dec w; link_in := link_in w; link_out := link_out w;
     range_buf := v; stdout := stdout w; stderr := stderr w |}.

(** [write(fd,buf,9)]: the first nine bytes of [buf] leave in one call. *)
Definition write (buf : frame) (w : world) : world :=
  {| dec := dec w; link_in := link_in w;
     link_out := link_out w ++ [firstn 9 buf];
     range_buf := range_buf w; stdout := stdout w; stderr := stderr w |}.

(** [printf("%d\n",v)] *)
Definition print_int (v : Z) (w : world) : world :=
  {| dec := dec w; link_in := link_in w; link_out := link_out w;
     range_buf := range_buf w; stdout := stdout w ++ [v];
     stderr := stderr w |}.

(** [fprintf(stderr,msg)] *)
Definition print_err (msg : string) (w : world) : world :=
  {| dec := dec w; link_in := link_in w; link_out := link_out w;
     range_buf := range_buf w; stdout := stdout w;
     stderr := stderr w ++ [msg] |}.

(** [read(fd,&c,1)].  A serial line whose listed outcomes are used up stays
    silent: every later read times out. *)
Definition read (w : world) : option byte * world :=
  match link_in w with
  | [] => (None, w)
  | rd :: rest => (rd, set_link_in rest w)
  end.

(** [rx_packet(fd)] on the world: one read, then the state machine. *)
Definition rx_packet_fd (w : world) : PacketType * world :=
  let (rd, w1) := read w in
  let (p, d) := rx_packet rd (dec w1) in
  (p, set_dec d w1).

(** ** The senders *)

Definition request_co2_level_buf : frame :=
  [xff; x01; x86; x00; x00; x00; x00; x00; x79].

Definition abc_off_buf : frame :=
  [xff; x01; x79; x00; x00; x00; x00; x00; x86].

(** Initial contents of the static buffer of [set_range]. *)
Definition set_range_buf0 : frame :=
  [xff; x01; x99; x00; x00; x00; x00; x00; x00].

Definition request_co2_level (w : world) : world :=
  write request_co2_level_buf w.

Definition abc_off (w : world) : world :=
  write abc_off_buf w.

(** [buf[i] = v] on an array of [unsigned char]. *)
Fixpoint store (i : nat) (v : Z) (buf : frame) : frame :=
  match buf, i with
  | [], _ => []
  | _ :: t, O => to_uchar v :: t
  | h :: t, S i' => h :: store i' v t
  end.

(** [buf[i]], promoted to [int]. *)
Definition load (i : nat) (buf : frame) : Z := uchar (nth i buf x00).

(** [set_range].  The buffer is static: stores made by one call are seen by
    the next.  [/] and [%] of C truncate towards zero ([Z.quot], [Z.rem]).
    The result is the returned [int] and the world after the call. *)
Definition set_range (range : Z) (w : world) : Z * world :=
  if negb (range =? 2000) && negb (range =? 5000) && negb (range =? 10000)
  then (-1, w)
  else
    let buf := range_buf w in
    let buf := store 3 (Z.quot range 256) buf in
    let buf := store 4 (Z.rem range 256) buf in
    let buf :=
      store 8
        (Z.land
           (0xff
            - Z.land (load 1 buf + load 2 buf + load 3 buf + load 4 buf
                      + load 5 buf + load 6 buf + load 7 buf) 0xff
            + 1)
           0xff)
        buf in
    (0, write buf (set_range_buf buf w)).

(** ** The session controller *)

Definition msg_abc_off : string :=
  "Error initialising sensor - did not receive response from 'ABC off' command"
  ++ String (ascii_of_nat 10) EmptyString.

Definition msg_set_range : string :=
  "Error initialising sensor - did not receive response from 'Set range' command"
  ++ String (ascii_of_nat 10) EmptyString.

(** How one of the two waiting loops of [main] ends: the awaited packet came
    ([timed_out = 0]), the loop condition failed ([timed_out = 1]), or the
    listed clock readings ran out while the loop was still going. *)
Inductive wait_result : Type :=
| Acked (clock : list Z) (w : world)
| TimedOut (clock : list Z) (w : world)
| Waiting (w : world).

(** [while (time(NULL)-ref_time < 2) { if (rx_packet(fd) == expect)
    { timed_out = 0; break; } }].  Each test of the loop condition takes one
    clock reading. *)
Fixpoint wait_response (expect : PacketType) (ref_time : Z)
    (clock : list Z) (w : world) : wait_result :=
  match clock with
  | [] => Waiting w
  | now :: clock' =>
      if now - ref_time <? 2
      then
        let (p, w1) := rx_packet_fd w in
        if PacketType_eqb p expect
        then Acked clock' w1
        else wait_response expect ref_time clock' w1
      else TimedOut clock' w
  end.

(** One turn of the [while(1)] loop, given the value [cur_time] that
    [time(NULL)] returns in it. *)
Definition steady_iter (cur_time : Z) (st : Z * world) : Z * world :=
  let (ref_time, w) := st in
  let (p, w) := rx_packet_fd w in
  let w :=
    if PacketType_eqb p CO2Level
    then print_int (co2_level (dec w)) w
    else w in
  if cur_time - ref_time >? 10
  then (ref_time + 10, request_co2_level w)
  else (ref_time, w).

(** The polling loop for as many turns as there are clock readings. *)
Definition steady_run (clock : list Z) (st : Z * world) : Z * world :=
  fold_left (fun st cur_time => steady_iter cur_time st) clock st.

(** What is seen of a run of [main]: the process has returned with a status,
    the polling loop has been entered (with its [ref_time] and the clock
    readings not yet used), or the clock readings ended during the
    handshake. *)
Inductive run : Type :=
| Exit (code : Z) (w : world)
| Steady (ref_time : Z) (clock : list Z) (w : world)
| Cut (w : world).

(** [main] from [abc_off(fd)] up to the entry of [while(1)].  The serial
    port is taken to have been opened. *)
Definition main_init (clock : list Z) (w : world) : run :=
  let w := abc_off w in
  match clock with
  | [] => Cut w
  | ref_time :: clock =>
      match wait_response ABCOff ref_time clock w with
      | Waiting w => Cut w
      | TimedOut _ w => Exit 1 (print_err msg_abc_off w)
      | Acked clock w =>
          let w := snd (set_range 10000 w) in
          match clock with
          | [] => Cut w
          | ref_time :: clock =>
              match wait_response SetRange ref_time clock w with
              | Waiting w => Cut w
              | TimedOut _ w => Exit 1 (print_err msg_set_range w)
              | Acked clock w =>
                  match clock with
                  | [] => Cut w
                  | ref_time :: clock => Steady ref_time clock w
                  end
              end
          end
      end
  end.

(** The world a run of [main] has reached when its clock readings are used
    up or the process has returned. *)
Definition main (clock : list Z) (w : world) : option Z * world :=
  match main_init clock w with
  | Exit code w => (Some code, w)
  | Cut w => (None, w)
  | Steady ref_time clock w => (None, snd (steady_run clock (ref_time, w)))
  end.

(** The world at process start, for a serial line that will deliver
    [link]. *)
Definition world0 (link : list (option byte)) : world :=
  {| dec := rx_init; link_in := link; link_out := [];
     range_buf := set_range_buf0; stdout := []; stderr := [] |}.

(** Number of [request_co2_level] frames among the writes made so far. *)
Definition requests (w : world) : Z :=
  Z.of_nat (count_occ (list_eq_dec Byte.byte_eq_dec) (link_out w)
              request_co2_level_buf).

(** ** Vocabulary of the statements *)

(** The frame of the 420 ppm reading and the same frame with its last byte
    zeroed, so that its bytes no longer add up to 0xFF. *)
Definition frame_420 : frame :=
  [xff; x86; x01; xa4; x00; x00; x00; x00; xd5].

Definition frame_corrupt : frame :=
  [xff; x86; x01; xa4; x00; x00; x00; x00; x00].

(** The returns that carry a packet kind. *)
Definition classified (ps : list PacketType) : list PacketType :=
  filter (fun p => negb (PacketType_eqb p Packet.None)) ps.

(** The bytes delivered by a sequence of reads. *)
Definition bytes_of (rds : list (option byte)) : list byte :=
  flat_map (fun rd => match rd with Some b => [b] | None => [] end) rds.

(** The decoders the program can be in: those reached from the initial one
    by some sequence of reads. *)
Definition reachable (d : decoder) : Prop :=
  exists rds : list (option byte), d = snd (rx_run rds rx_init).

(** A reading of the frame layout that counts byte positions from 0 at the
    start byte and takes the kind from position 2 and the measurement from
    positions 3 and 4.  These two definitions follow that reading, not the
    source; they are compared with [rx_packet] below. *)
Definition kind_at_2 (f : frame) : PacketType :=
  classify (uchar (nth 2 f x00)).

Definition measurement_at_3_4 (f : frame) : Z :=
  Z.lor (Z.shiftl (uchar (nth 3 f x00)) 8) (uchar (nth 4 f x00)).

(** A valid frame carrying the reading 800 ppm (0x0320). *)
Definition frame_800 : frame :=
  [xff; x86; x03; x20; x00; x00; x00; x00; x57].

(** The cells of the static buffer of [set_range] that no store touches
    keep their initial values; cells 3, 4 and 8 hold whatever the last call
    left there. *)
Definition range_buf_inv (buf : frame) : Prop :=
  exists b3 b4 b8 : byte, buf = [xff; x01; x99; b3; b4; x00; x00; x00; b8].

(** The ranges [set_range] accepts. *)
Definition allowed_range (r : Z) : Prop := r = 2000 \/ r = 5000 \/ r = 10000.

(** The decoder follows the frame in progress: [part] holds the bytes of
    that frame consumed so far, the start byte first. *)
Definition tracks (part : list byte) (d : decoder) : Prop :=
  match part with
  | [] => rxstate d = 1
  | [b0] => b0 = xff /\ rxstate d = 2
  | [b0; b1] => b0 = xff /\ rxstate d = 3 /\ packet d = classify (uchar b1)
  | [b0; b1; b2] =>
      b0 = xff /\ rxstate d = 4 /\ packet d = classify (uchar b1)
      /\ byte3 d = uchar b2
  | b0 :: b1 :: b2 :: b3 :: rest =>
      b0 = xff /\ rxstate d = 5 + Z.of_nat (List.length rest)
      /\ (List.length rest <= 4)%nat
      /\ packet d = classify (uchar b1)
      /\ (packet d = CO2Level -> co2_level d = 256 * uchar b2 + uchar b3)
  end.

(** A value that ["%d\n"] may print: a 16-bit unsigned reading. *)
Definition is_reading (v : Z) : Prop := 0 <= v <= 65535.

(** What holds of the world throughout a run of [main]. *)
Definition world_inv (w : world) : Prop :=
  reachable (dec w) /\ Forall is_reading (stdout w).

(** The frame [set_range(fd,10000)] writes. *)
Definition set_range_10000_buf : frame :=
  [xff; x01; x99; x27; x10; x00; x00; x00; x2f].

(** Clock readings taken by a loop that turns at least once per second: each
    reading is the one before or one second later.  [prev] is the reading
    before the first of the list. *)
Fixpoint ticks (prev : Z) (clock : list Z) : Prop :=
  match clock with
  | [] => True
  | t :: clock' => prev <= t <= prev + 1 /\ ticks t clock'
  end.

(** Clock readings taken by a loop none of whose turns lets the clock advance
    by more than 10 seconds.  [prev] is the reading before the first of the
    list. *)
Fixpoint paced (prev : Z) (clock : list Z) : Prop :=
  match clock with
  | [] => True
  | t :: clock' => prev <= t <= prev + 10 /\ paced t clock'
  end.

(** A serial line that never delivers a byte. *)
Definition silent (link : list (option byte)) : Prop :=
  Forall (fun rd => rd = None) link.

(** Acknowledgements as the sensor sends them, used in the examples. *)
Definition ack_abc_off : frame :=
  [xff; x79; x01; x00; x00; x00; x00; x00; x86].

Definition ack_set_range : frame :=
  [xff; x99; x01; x00; x00; x00; x00; x00; x66].

(** Two worlds that differ at most in the decoder and the pending input. *)
Definition same_io (w w' : world) : Prop :=
  link_out w' = link_out w /\ stdout w' = stdout w /\ stderr w' = stderr w
  /\ range_buf w' = range_buf w.

(** A clock reading at which a waiting loop that started at [ref_time] still
    goes on. *)
Definition before_deadline (ref_time now : Z) : Prop := now - ref_time < 2.

(** ** Vocabulary of the further properties *)

(** A byte stream made of frames, each preceded by bytes that do not belong
    to any frame. *)
Definition stream (gfs : list (list byte * frame)) : list byte :=
  flat_map (fun gf => fst gf ++ snd gf) gfs.

(** The kind a frame announces in the byte after its start byte. *)
Definition frame_kind (f : frame) : PacketType :=
  classify (uchar (nth 1 f x00)).

(** The outcomes of the next [n] calls of [read] on a line that will deliver
    [link]: the listed outcomes, then timeouts. *)
Fixpoint reads (n : nat) (link : list (option byte)) : list (option byte) :=
  match n with
  | O => []
  | S n' =>
      match link with
      | [] => None :: reads n' []
      | rd :: rest => rd :: reads n' rest
      end
  end.

(** The measurements in force at the [CO2Level] returns of a sequence of
    calls of the decoder, in order. *)
Fixpoint readings (rds : list (option byte)) (d : decoder) : list Z :=
  match rds with
  | [] => []
  | rd :: rds' =>
      let (p, d1) := rx_packet rd d in
      (if PacketType_eqb p CO2Level then [co2_level d1] else [])
      ++ readings rds' d1
  end.

(** Clock readings that never go back.  [prev] is the reading before the
    first of the list. *)
Fixpoint nondecreasing (prev : Z) (clock : list Z) : Prop :=
  match clock with
  | [] => True
  | t :: clock' => prev <= t /\ nondecreasing t clock'
  end.

(** Successive calls of [set_range], the returned values dropped. *)
Definition set_range_calls (rs : list Z) (w : world) : world :=
  fold_left (fun w r => snd (set_range r w)) rs w.


(** [tracks], together with the running sum: inside a frame it is the sum
    of the bytes of the frame consumed so far, modulo 256. *)
Definition follows (part : list byte) (d : decoder) : Prop :=
  tracks part d /\ (part <> [] -> checksum d = frame_sum part mod 256).

(** The fields of the decoder within the ranges of their C types, and the
    measurement either the sentinel or a 16-bit reading. *)
Definition fields_in_range (d : decoder) : Prop :=
  0 <= checksum d < 256 /\ 0 <= byte3 d < 256
  /\ (co2_level d = -1 \/ 0 <= co2_level d <= 65535).

(** * Properties *)

Example feed_420 :
  feed [xff; x86; x01; xa4; x00; x00; x00; x00; xd5] rx_init
  = ([Packet.None; Packet.None; Packet.None; Packet.None; Packet.None;
      Packet.None; Packet.None; Packet.None; CO2Level],
     {| rxstate := 1; checksum := 0xff; byte3 := 1;
        packet := CO2Level; co2_level := 420 |}).
Proof. reflexivity. Qed.

(** ** Bytes and packet kinds *)

Lemma uchar_range (b : byte) : 0 <= uchar b < 256.
Proof.
  unfold uchar. pose proof (Byte.to_N_bounded b) as H. lia.
Qed.

Lemma uchar_xff_val : uchar xff = 0xff.
Proof. reflexivity. Qed.

Lemma uchar_xff (b : byte) : uchar b = 0xff <-> b = xff.
Proof.
  split; intros H.
  - destruct b; try reflexivity; vm_compute in H; discriminate H.
  - subst b. reflexivity.
Qed.

Lemma uchar_x86 (b : byte) : uchar b = 0x86 <-> b = x86.
Proof.
  split; intros H.
  - destruct b; try reflexivity; vm_compute in H; discriminate H.
  - subst b. reflexivity.
Qed.

Lemma classify_not_None (c : Z) : classify c <> Packet.None.
Proof.
  unfold classify.
  repeat match goal with
         | |- context [match ?x with _ => _ end] => destruct x
         end; discriminate.
Qed.

Lemma classify_CO2Level (c : Z) : classify c = CO2Level <-> c = 0x86.
Proof.
  split; intros H.
  - unfold classify in H.
    repeat match type of H with
           | context [match ?x with _ => _ end] => destruct x
           end; try discriminate H; reflexivity.
  - subst c. reflexivity.
Qed.

Lemma PacketType_eqb_eq (p q : PacketType) :
  PacketType_eqb p q = true <-> p = q.
Proof.
  destruct p, q; simpl; split; intros H; try reflexivity; discriminate H.
Qed.

Lemma PacketType_eqb_refl (p : PacketType) : PacketType_eqb p p = true.
Proof. destruct p; reflexivity. Qed.

(** ** One step of the state machine, state by state *)

Section Steps.
Variables (ck y lv : Z) (pk : PacketType) (b : byte).

Let ck' := (ck + uchar b) mod 256.

Lemma rx_packet_timeout (d : decoder) : rx_packet None d = (Packet.None, d).
Proof. reflexivity. Qed.

Lemma rx_packet_1 :
  rx_packet (Some b) (mkDecoder 1 ck y pk lv)
  = (Packet.None,
     if uchar b =? 0xff then mkDecoder 2 0xff y pk lv
     else mkDecoder 1 ck' y pk lv).
Proof.
  unfold rx_packet; cbn [rxstate set_checksum].
  destruct (Z.eqb_spec (uchar b) 0xff) as [E | E]; [rewrite E |]; reflexivity.
Qed.

Lemma rx_packet_1_ff :
  rx_packet (Some xff) (mkDecoder 1 ck y pk lv)
  = (Packet.None, mkDecoder 2 0xff y pk lv).
Proof. reflexivity. Qed.

Lemma rx_packet_2 :
  rx_packet (Some b) (mkDecoder 2 ck y pk lv)
  = (Packet.None, mkDecoder 3 ck' y (classify (uchar b)) lv).
Proof. reflexivity. Qed.

Lemma rx_packet_3 :
  rx_packet (Some b) (mkDecoder 3 ck y pk lv)
  = (Packet.None, mkDecoder 4 ck' (uchar b) pk lv).
Proof. reflexivity. Qed.

Lemma rx_packet_4 :
  rx_packet (Some b) (mkDecoder 4 ck y pk lv)
  = (Packet.None,
     mkDecoder 5 ck' y pk
       (if PacketType_eqb pk CO2Level then 256 * y + uchar b else lv)).
Proof.
  unfold rx_packet; cbn [rxstate set_checksum packet].
  destruct (PacketType_eqb pk CO2Level); reflexivity.
Qed.

Lemma rx_packet_5 :
  rx_packet (Some b) (mkDecoder 5 ck y pk lv)
  = (Packet.None, mkDecoder 6 ck' y pk lv).
Proof. reflexivity. Qed.

Lemma rx_packet_6 :
  rx_packet (Some b) (mkDecoder 6 ck y pk lv)
  = (Packet.None, mkDecoder 7 ck' y pk lv).
Proof. reflexivity. Qed.

Lemma rx_packet_7 :
  rx_packet (Some b) (mkDecoder 7 ck y pk lv)
  = (Packet.None, mkDecoder 8 ck' y pk lv).
Proof. reflexivity. Qed.

Lemma rx_packet_8 :
  rx_packet (Some b) (mkDecoder 8 ck y pk lv)
  = (Packet.None, mkDecoder 9 ck' y pk lv).
Proof. reflexivity. Qed.

Lemma rx_packet_9 :
  rx_packet (Some b) (mkDecoder 9 ck y pk lv)
  = (if ck' =? 0xff then pk else Packet.None, mkDecoder 1 ck' y pk lv).
Proof.
  unfold rx_packet; cbn [rxstate set_checksum set_rxstate checksum packet
                         byte3 co2_level].
  fold ck'. destruct (ck' =? 0xff); reflexivity.
Qed.

(** Outside 1..9 the [default] branch is taken: only the running sum
    moves. *)
Lemma rx_packet_default (st : Z) :
  ~ 1 <= st <= 9 ->
  rx_packet (Some b) (mkDecoder st ck y pk lv)
  = (Packet.None, mkDecoder st ck' y pk lv).
Proof.
  intros H. unfold rx_packet; cbn [rxstate set_checksum].
  destruct st as [| p | p]; try reflexivity.
  do 4 (try destruct p as [p | p |]); try reflexivity; lia.
Qed.
End Steps.

(** Every state is one of the nine of the [switch] or falls to its
    [default]. *)
Lemma rxstate_cases (st : Z) :
  st = 1 \/ st = 2 \/ st = 3 \/ st = 4 \/ st = 5 \/ st = 6 \/ st = 7
  \/ st = 8 \/ st = 9 \/ ~ 1 <= st <= 9.
Proof. lia. Qed.

(** ** Runs of the state machine *)

Lemma rx_run_app (r1 r2 : list (option byte)) (d : decoder) :
  rx_run (r1 ++ r2) d
  = (fst (rx_run r1 d) ++ fst (rx_run r2 (snd (rx_run r1 d))),
     snd (rx_run r2 (snd (rx_run r1 d)))).
Proof.
  revert d. induction r1 as [| rd r1 IH]; intros d; cbn [rx_run app fst snd].
  - destruct (rx_run r2 d); reflexivity.
  - destruct (rx_packet rd d) as [p d1]. rewrite IH.
    destruct (rx_run r1 d1) as [ps d2]. reflexivity.
Qed.

Lemma feed_app (g f : list byte) (d : decoder) :
  feed (g ++ f) d
  = (fst (feed g d) ++ fst (feed f (snd (feed g d))),
     snd (feed f (snd (feed g d)))).
Proof. unfold feed. rewrite map_app. apply rx_run_app. Qed.

Lemma feed_cons (b : byte) (bs : list byte) (d : decoder) :
  feed (b :: bs) d
  = (fst (rx_packet (Some b) d) :: fst (feed bs (snd (rx_packet (Some b) d))),
     snd (feed bs (snd (rx_packet (Some b) d)))).
Proof.
  unfold feed; cbn [rx_run map]. destruct (rx_packet (Some b) d) as [p d1].
  cbn [fst snd]. destruct (rx_run (map Some bs) d1); reflexivity.
Qed.

Lemma feed_nil (d : decoder) : feed [] d = ([], d).
Proof. reflexivity. Qed.

Lemma feed_cons_eq (b : byte) (bs : list byte) (d d' d'' : decoder)
    (p : PacketType) (ps : list PacketType) :
  rx_packet (Some b) d = (p, d') ->
  feed bs d' = (ps, d'') ->
  feed (b :: bs) d = (p :: ps, d'').
Proof.
  intros H1 H2. rewrite feed_cons, H1. cbn [fst snd]. rewrite H2. reflexivity.
Qed.

(** Advances a goal [feed (b :: bs) d = _] by one call when the state of [d]
    is a literal. *)
Ltac feed_step :=
  eapply feed_cons_eq;
  [ first [ apply rx_packet_1_ff | apply rx_packet_2 | apply rx_packet_3
          | apply rx_packet_4 | apply rx_packet_5 | apply rx_packet_6
          | apply rx_packet_7 | apply rx_packet_8 | apply rx_packet_9 ]
  | ].

(** The running sum kept by the state machine is the sum of the frame. *)
Lemma running_sum (c1 c2 c3 c4 c5 c6 c7 c8 : Z) :
  ((((((((0xff + c1) mod 256 + c2) mod 256 + c3) mod 256 + c4) mod 256
      + c5) mod 256 + c6) mod 256 + c7) mod 256 + c8) mod 256
  = (0xff + (c1 + (c2 + (c3 + (c4 + (c5 + (c6 + (c7 + (c8 + 0))))))))) mod 256.
Proof.
  rewrite (Z.add_mod_idemp_l (0xff + c1)) by lia.
  rewrite (Z.add_mod_idemp_l (0xff + c1 + c2)) by lia.
  rewrite (Z.add_mod_idemp_l (0xff + c1 + c2 + c3)) by lia.
  rewrite (Z.add_mod_idemp_l (0xff + c1 + c2 + c3 + c4)) by lia.
  rewrite (Z.add_mod_idemp_l (0xff + c1 + c2 + c3 + c4 + c5)) by lia.
  rewrite (Z.add_mod_idemp_l (0xff + c1 + c2 + c3 + c4 + c5 + c6)) by lia.
  rewrite (Z.add_mod_idemp_l (0xff + c1 + c2 + c3 + c4 + c5 + c6 + c7)) by lia.
  f_equal. ring.
Qed.

(** A whole frame fed to a decoder that waits for a start byte: eight calls
    return [None]; the ninth returns the kind read from the byte after the
    start byte when the bytes add up to 0xFF, and [None] otherwise. *)
Lemma feed_frame (d : decoder) (b1 b2 b3 b4 b5 b6 b7 b8 : byte) :
  rxstate d = 1 ->
  let f := [xff; b1; b2; b3; b4; b5; b6; b7; b8] in
  feed f d
  = (repeat Packet.None 8
       ++ [if checksum_ok f then classify (uchar b1) else Packet.None],
     {| rxstate := 1;
        checksum := frame_sum f mod 256;
        byte3 := uchar b2;
        packet := classify (uchar b1);
        co2_level :=
          if PacketType_eqb (classify (uchar b1)) CO2Level
          then 256 * uchar b2 + uchar b3
          else co2_level d |}).
Proof.
  intros H f. destruct d as [st ck y pk lv]. cbn [rxstate] in H. subst st.
  unfold f, checksum_ok, frame_sum. cbn [fold_right co2_level repeat app].
  rewrite uchar_xff_val, <- running_sum.
  do 9 feed_step. reflexivity.
Qed.

(** Bytes other than 0xFF leave a waiting decoder waiting: every call
    returns [None] and only the running sum moves. *)
Lemma feed_garbage (g : list byte) (d : decoder) :
  rxstate d = 1 ->
  Forall (fun b => b <> xff) g ->
  fst (feed g d) = repeat Packet.None (List.length g)
  /\ rxstate (snd (feed g d)) = 1
  /\ byte3 (snd (feed g d)) = byte3 d
  /\ packet (snd (feed g d)) = packet d
  /\ co2_level (snd (feed g d)) = co2_level d.
Proof.
  intros H Hg. revert d H.
  induction Hg as [| b g Hb Hg IH]; intros d H.
  - repeat split; assumption || reflexivity.
  - rewrite feed_cons. cbn [fst snd List.length repeat].
    destruct d as [st ck y pk lv]. cbn [rxstate] in H. subst st.
    rewrite rx_packet_1.
    destruct (Z.eqb_spec (uchar b) 0xff) as [E | E].
    { apply uchar_xff in E. contradiction. }
    cbn [fst snd].
    destruct (IH (mkDecoder 1 ((ck + uchar b) mod 256) y pk lv) eq_refl)
      as (R & S1 & B3 & P & L).
    rewrite R. repeat split; assumption.
Qed.

(** ** Single calls on an arbitrary decoder *)

(** Splits on the state of a decoder and rewrites the call made on it; the
    other four fields are named [ck], [y], [pk] and [lv]. *)
Ltac rx_cases d :=
  let st := fresh "st" in
  let E := fresh "E" in
  destruct d as [st ck y pk lv];
  destruct (rxstate_cases st) as [E|[E|[E|[E|[E|[E|[E|[E|[E|E]]]]]]]]];
  [ subst st; rewrite rx_packet_1 | subst st; rewrite rx_packet_2
  | subst st; rewrite rx_packet_3 | subst st; rewrite rx_packet_4
  | subst st; rewrite rx_packet_5 | subst st; rewrite rx_packet_6
  | subst st; rewrite rx_packet_7 | subst st; rewrite rx_packet_8
  | subst st; rewrite rx_packet_9
  | rewrite (rx_packet_default _ _ _ _ _ _ E) ];
  cbn [fst snd rxstate checksum byte3 packet co2_level].

(** The state stays among the nine of the [switch]. *)
Lemma rx_packet_rxstate (rd : option byte) (d : decoder) :
  1 <= rxstate d <= 9 -> 1 <= rxstate (snd (rx_packet rd d)) <= 9.
Proof.
  intros H. destruct rd as [b |]; [| exact H].
  rx_cases d; cbn [rxstate] in H; try lia.
  destruct (uchar b =? 0xff); cbn [rxstate]; lia.
Qed.

(** A call that returns a kind consumed a ninth byte that brought the
    running sum to 0xFF, and returns the latched kind. *)
Lemma rx_packet_returns (rd : option byte) (d : decoder) :
  fst (rx_packet rd d) <> Packet.None ->
  exists b, rd = Some b /\ rxstate d = 9
            /\ (checksum d + uchar b) mod 256 = 0xff
            /\ fst (rx_packet rd d) = packet d.
Proof.
  intros H. destruct rd as [b |]; [| contradiction H; reflexivity].
  exists b. revert H. rx_cases d; intros H; try (contradiction H; reflexivity).
  destruct (Z.eqb_spec ((ck + uchar b) mod 256) 0xff) as [E | E].
  - auto.
  - contradiction H; reflexivity.
Qed.

(** The ninth byte always brings the decoder back to state 1. *)
Lemma rx_packet_ninth (b : byte) (d : decoder) :
  rxstate d = 9 -> rxstate (snd (rx_packet (Some b) d)) = 1.
Proof.
  intros H. destruct d as [st ck y pk lv]. cbn [rxstate] in H. subst st.
  rewrite rx_packet_9. reflexivity.
Qed.

(** The measurement moves only on the fourth byte of a frame whose second
    byte was 0x86, whatever the checksum turns out to be. *)
Lemma rx_packet_co2_level (rd : option byte) (d : decoder) :
  co2_level (snd (rx_packet rd d)) <> co2_level d ->
  exists b, rd = Some b /\ rxstate d = 4 /\ packet d = CO2Level
            /\ co2_level (snd (rx_packet rd d)) = 256 * byte3 d + uchar b.
Proof.
  intros H. destruct rd as [b |]; [| contradiction H; reflexivity].
  exists b. revert H. rx_cases d; intros H; try (contradiction H; reflexivity).
  - destruct (uchar b =? 0xff); contradiction H; reflexivity.
  - destruct (PacketType_eqb pk CO2Level) eqn:E.
    + apply PacketType_eqb_eq in E. auto.
    + contradiction H; reflexivity.
Qed.

Lemma rx_run_rxstate (rds : list (option byte)) (d : decoder) :
  1 <= rxstate d <= 9 -> 1 <= rxstate (snd (rx_run rds d)) <= 9.
Proof.
  revert d. induction rds as [| rd rds IH]; intros d H; [exact H |].
  cbn [rx_run]. pose proof (rx_packet_rxstate rd d H) as H1.
  destruct (rx_packet rd d) as [p d1]. cbn [snd] in H1.
  specialize (IH d1 H1). destruct (rx_run rds d1) as [ps d2]. exact IH.
Qed.

(** A nine-byte list that starts with 0xFF, taken apart. *)
Lemma frame_shape (f : frame) :
  List.length f = 9%nat -> nth 0 f x00 = xff ->
  exists b1 b2 b3 b4 b5 b6 b7 b8, f = [xff; b1; b2; b3; b4; b5; b6; b7; b8].
Proof.
  intros L H0.
  do 9 (destruct f as [| ? f]; [discriminate L |]).
  destruct f; [| discriminate L]. cbn [nth] in H0. subst.
  repeat eexists.
Qed.

(** ** The 420 ppm reading *)

(** C6.  Fed to a decoder that waits for a start byte (state 1), the nine
    bytes FF 86 01 A4 00 00 00 00 D5 make the first eight calls return
    [None] and the ninth return [CO2Level], after which the measurement is
    420. *)
Theorem reading_420_ppm (d : decoder) :
  rxstate d = 1 ->
  fst (feed frame_420 d) = repeat Packet.None 8 ++ [CO2Level]
  /\ co2_level (snd (feed frame_420 d)) = 420.
Proof.
  intros H. unfold frame_420.
  pose proof (feed_frame d x86 x01 xa4 x00 x00 x00 x00 xd5 H) as F.
  cbv zeta in F. rewrite F. split; reflexivity.
Qed.

Lemma reading_420_ppm_witness :
  fst (feed frame_420 rx_init) = repeat Packet.None 8 ++ [CO2Level]
  /\ co2_level (snd (feed frame_420 rx_init)) = 420.
Proof. apply (reading_420_ppm rx_init). reflexivity. Defined.

(** ** When the measurement is written *)

(** C1, as stated, fails: after a valid 800 ppm reading the corrupt frame
    FF 86 01 A4 00 00 00 00 00 is rejected (every call returns [None]), yet
    the measurement no longer has its prior value. *)
Lemma corrupt_frame_overwrites_measurement :
  let d := snd (feed frame_800 rx_init) in
  rxstate d = 1
  /\ co2_level d = 800
  /\ fst (feed frame_corrupt d) = repeat Packet.None 9
  /\ co2_level (snd (feed frame_corrupt d)) <> co2_level d.
Proof.
  cbv zeta. repeat split; try reflexivity.
  vm_compute. discriminate.
Qed.

(** C1, amended.  A call changes the measurement only when it consumes the
    fourth byte of a frame (state 4) whose latched kind is [CO2Level], and
    then sets it to 256 * byte3 + that byte; the checksum, which is examined
    five bytes later, plays no part.  Accordingly the corrupt frame
    FF 86 01 A4 00 00 00 00 00, fed to a decoder in state 1, returns [None]
    on every call and leaves the measurement at 420 whatever it was
    before. *)
Theorem measurement_written_on_fourth_byte (d : decoder) :
  (forall rd : option byte,
      co2_level (snd (rx_packet rd d)) <> co2_level d ->
      exists b, rd = Some b /\ rxstate d = 4 /\ packet d = CO2Level
                /\ co2_level (snd (rx_packet rd d)) = 256 * byte3 d + uchar b)
  /\ (rxstate d = 1 ->
      fst (feed frame_corrupt d) = repeat Packet.None 9
      /\ co2_level (snd (feed frame_corrupt d)) = 420).
Proof.
  split.
  - intros rd. apply rx_packet_co2_level.
  - intros H. unfold frame_corrupt.
    pose proof (feed_frame d x86 x01 xa4 x00 x00 x00 x00 x00 H) as F.
    cbv zeta in F. rewrite F. split; reflexivity.
Qed.

Lemma measurement_written_on_fourth_byte_witness :
  (exists b, Some xa4 = Some b
             /\ rxstate (mkDecoder 4 0x86 1 CO2Level (-1)) = 4
             /\ packet (mkDecoder 4 0x86 1 CO2Level (-1)) = CO2Level
             /\ co2_level
                  (snd (rx_packet (Some xa4) (mkDecoder 4 0x86 1 CO2Level (-1))))
                = 256 * byte3 (mkDecoder 4 0x86 1 CO2Level (-1)) + uchar b)
  /\ (fst (feed frame_corrupt rx_init) = repeat Packet.None 9
      /\ co2_level (snd (feed frame_corrupt rx_init)) = 420).
Proof.
  split.
  - apply (proj1 (measurement_written_on_fourth_byte
                    (mkDecoder 4 0x86 1 CO2Level (-1))) (Some xa4)).
    vm_compute. discriminate.
  - apply (proj2 (measurement_written_on_fourth_byte rx_init)).
    reflexivity.
Defined.

(** ** Which bytes carry the kind and the measurement *)

(** For a low part below 256 the C expression [256*hi + lo] is the
    big-endian combination [(hi << 8) | lo]. *)
Lemma shift_or_bytes (hi lo : Z) :
  0 <= hi -> 0 <= lo < 256 -> Z.lor (Z.shiftl hi 8) lo = 256 * hi + lo.
Proof.
  intros Hhi Hlo.
  assert (N : Z.land (Z.shiftl hi 8) lo = 0).
  { apply Z.bits_inj'. intros n Hn.
    rewrite Z.land_spec, Z.bits_0.
    destruct (Z.lt_ge_cases n 8) as [L | G].
    - rewrite Z.shiftl_spec_low by assumption. reflexivity.
    - destruct (Z.eq_dec lo 0) as [-> | NZ].
      + rewrite Z.bits_0. apply andb_false_r.
      + rewrite (Z.bits_above_log2 lo n), andb_false_r; [reflexivity | lia |].
        apply Z.lt_le_trans with 8; [| assumption].
        apply Z.log2_lt_pow2; [lia |]. change (2 ^ 8) with 256. lia. }
  rewrite <- Z.lxor_lor by assumption.
  rewrite <- Z.add_nocarry_lxor by assumption.
  rewrite Z.shiftl_mul_pow2 by lia. change (2 ^ 8) with 256. ring.
Qed.

(** C2, as stated, fails on the frame of the 420 ppm reading: position 2
    (counting from 0 at the start byte) holds 0x01, which classifies as
    [Other], while the decoder returns [CO2Level]; and positions 3 and 4
    combine to 0xA400 = 41984, while the decoder stores 420. *)
Lemma kind_is_not_at_position_2 :
  last (fst (feed frame_420 rx_init)) Packet.None = CO2Level
  /\ kind_at_2 frame_420 = Other
  /\ co2_level (snd (feed frame_420 rx_init)) = 420
  /\ measurement_at_3_4 frame_420 = 41984
  /\ last (fst (feed frame_420 rx_init)) Packet.None <> kind_at_2 frame_420
  /\ co2_level (snd (feed frame_420 rx_init)) <> measurement_at_3_4 frame_420.
Proof.
  repeat split; try reflexivity; vm_compute; discriminate.
Qed.

(** C2, amended.  With positions counted from 0 at the 0xFF start byte, the
    kind of a received nine-byte frame is derived from position 1 (0x86 is
    [CO2Level], 0x79 is [ABCOff], 0x99 is [SetRange], anything else is
    [Other]) and is what the ninth call returns when the bytes add up to
    0xFF; the measurement of a [CO2Level] frame is (byte2 << 8) | byte3, and
    a frame of another kind leaves the measurement alone. *)
Theorem kind_and_measurement_positions (d : decoder) (f : frame) :
  rxstate d = 1 -> List.length f = 9%nat -> nth 0 f x00 = xff ->
  let kind := classify (uchar (nth 1 f x00)) in
  classify 0x86 = CO2Level /\ classify 0x79 = ABCOff
  /\ classify 0x99 = SetRange
  /\ (forall c, c <> 0x86 -> c <> 0x79 -> c <> 0x99 -> classify c = Other)
  /\ packet (snd (feed f d)) = kind
  /\ fst (feed f d)
     = repeat Packet.None 8 ++ [if checksum_ok f then kind else Packet.None]
  /\ (kind = CO2Level ->
      co2_level (snd (feed f d))
      = Z.lor (Z.shiftl (uchar (nth 2 f x00)) 8) (uchar (nth 3 f x00)))
  /\ (kind <> CO2Level -> co2_level (snd (feed f d)) = co2_level d).
Proof.
  intros H L H0 kind.
  destruct (frame_shape f L H0) as (b1 & b2 & b3 & b4 & b5 & b6 & b7 & b8 & ->).
  pose proof (feed_frame d b1 b2 b3 b4 b5 b6 b7 b8 H) as F.
  cbv zeta in F. rewrite F. subst kind. cbn [nth fst snd packet co2_level].
  repeat split.
  - intros c N1 N2 N3. unfold classify.
    repeat match goal with
           | |- context [match ?x with _ => _ end] => destruct x
           end; try reflexivity; lia.
  - intros K. rewrite K. cbn [PacketType_eqb].
    pose proof (uchar_range b2). pose proof (uchar_range b3).
    rewrite shift_or_bytes by lia. reflexivity.
  - intros K. destruct (PacketType_eqb (classify (uchar b1)) CO2Level) eqn:E.
    + apply PacketType_eqb_eq in E. contradiction.
    + reflexivity.
Qed.

Lemma kind_and_measurement_positions_witness :
  packet (snd (feed frame_420 rx_init)) = CO2Level
  /\ co2_level (snd (feed frame_420 rx_init))
     = Z.lor (Z.shiftl (uchar x01) 8) (uchar xa4).
Proof.
  pose proof (kind_and_measurement_positions rx_init frame_420
                eq_refl eq_refl eq_refl) as H.
  cbv zeta in H.
  destruct H as (_ & _ & _ & _ & P & _ & M & _).
  split; [exact P | apply M; reflexivity].
Defined.

(** ** Garbage before a frame *)

Lemma classified_repeat_None (n : nat) :
  classified (repeat Packet.None n) = [].
Proof. induction n as [| n IH]; [reflexivity | exact IH]. Qed.

Lemma classified_app (ps qs : list PacketType) :
  classified (ps ++ qs) = classified ps ++ classified qs.
Proof. apply filter_app. Qed.

Lemma Forall_firstn_keep {A : Type} (P : A -> Prop) (k : nat) (l : list A) :
  Forall P l -> Forall P (firstn k l).
Proof.
  intros H. revert k. induction H as [| a l Ha Hl IH]; intros [| k];
    cbn [firstn]; constructor; auto.
Qed.

(** C7.  Let [g] hold no 0xFF byte and let [f] be a valid frame: nine
    bytes, the first 0xFF, adding up to 0xFF modulo 256.  Fed to a decoder
    in state 1, every byte of [g] leaves the decoder in state 1 with
    nothing latched (high byte, kind and measurement are those from before
    [g]); the calls on [g ++ f] return exactly one kind, the same one as the
    calls on [f] alone, and leave the same decoder state. *)
Theorem garbage_prefix_invariance (d : decoder) (g f : list byte) :
  rxstate d = 1 ->
  Forall (fun b => b <> xff) g ->
  List.length f = 9%nat -> nth 0 f x00 = xff -> checksum_ok f = true ->
  (forall k : nat,
      let dk := snd (feed (firstn k g) d) in
      fst (feed (firstn k g) d) = repeat Packet.None (List.length (firstn k g))
      /\ rxstate dk = 1 /\ byte3 dk = byte3 d /\ packet dk = packet d
      /\ co2_level dk = co2_level d)
  /\ fst (feed (g ++ f) d)
     = repeat Packet.None (List.length g) ++ fst (feed f d)
  /\ classified (fst (feed (g ++ f) d)) = [classify (uchar (nth 1 f x00))]
  /\ classified (fst (feed f d)) = [classify (uchar (nth 1 f x00))]
  /\ snd (feed (g ++ f) d) = snd (feed f d).
Proof.
  intros H Hg L H0 Hck.
  split.
  { intros k dk. subst dk. apply feed_garbage; [exact H |].
    apply Forall_firstn_keep. exact Hg. }
  destruct (feed_garbage g d H Hg) as (R & S1 & B3 & P & Lv).
  destruct (frame_shape f L H0) as (b1 & b2 & b3 & b4 & b5 & b6 & b7 & b8 & ->).
  pose proof (feed_frame d b1 b2 b3 b4 b5 b6 b7 b8 H) as F.
  pose proof (feed_frame (snd (feed g d)) b1 b2 b3 b4 b5 b6 b7 b8 S1) as F'.
  cbv zeta in F, F'. rewrite Hck in F, F'. rewrite Lv in F'.
  rewrite feed_app, F', F, R. cbn [fst snd nth].
  assert (C : classified (repeat Packet.None 8 ++ [classify (uchar b1)])
              = [classify (uchar b1)]).
  { rewrite classified_app, classified_repeat_None. cbn [app classified filter].
    pose proof (classify_not_None (uchar b1)) as NN.
    destruct (classify (uchar b1)); try reflexivity. contradiction NN.
    reflexivity. }
  repeat split.
  - rewrite classified_app, classified_repeat_None. exact C.
  - exact C.
Qed.

Lemma garbage_prefix_invariance_witness :
  fst (feed ([x00; x86; x17] ++ frame_420) rx_init)
  = repeat Packet.None 3 ++ fst (feed frame_420 rx_init)
  /\ classified (fst (feed ([x00; x86; x17] ++ frame_420) rx_init))
     = [CO2Level]
  /\ snd (feed ([x00; x86; x17] ++ frame_420) rx_init)
     = snd (feed frame_420 rx_init).
Proof.
  assert (G : Forall (fun b => b <> xff) [x00; x86; x17]).
  { repeat constructor; discriminate. }
  pose proof (garbage_prefix_invariance rx_init [x00; x86; x17] frame_420
                eq_refl G eq_refl eq_refl eq_refl) as H.
  destruct H as (_ & A & B & _ & C).
  split; [exact A | split; [exact B | exact C]].
Defined.

(** ** The state variable *)

(** C9.  From the initial decoder and for every sequence of reads, the
    state variable stays in 1..9; a call returns something other than
    [None] only if it consumes a byte in state 9 and that byte brings the
    running sum to 0xFF; and a byte consumed in state 9 puts the state back
    to 1 whether or not the sum is 0xFF. *)
Theorem rxstate_in_1_to_9 (rds : list (option byte)) :
  let d := snd (rx_run rds rx_init) in
  1 <= rxstate d <= 9
  /\ (forall rd : option byte,
         fst (rx_packet rd d) <> Packet.None ->
         exists b, rd = Some b /\ rxstate d = 9
                   /\ (checksum d + uchar b) mod 256 = 0xff)
  /\ (forall b : byte,
         rxstate d = 9 -> rxstate (snd (rx_packet (Some b) d)) = 1).
Proof.
  intros d. split; [| split].
  - apply rx_run_rxstate. cbn [rxstate rx_init]. lia.
  - intros rd H. destruct (rx_packet_returns rd d H) as (b & E & S9 & C & _).
    exists b. auto.
  - intros b. apply rx_packet_ninth.
Qed.

Lemma rxstate_in_1_to_9_witness :
  (exists b, Some xd5 = Some b
             /\ rxstate (snd (rx_run (map Some (firstn 8 frame_420)) rx_init))
                = 9
             /\ (checksum (snd (rx_run (map Some (firstn 8 frame_420)) rx_init))
                 + uchar b) mod 256 = 0xff)
  /\ rxstate
       (snd (rx_packet (Some x00)
               (snd (rx_run (map Some (firstn 8 frame_420)) rx_init))))
     = 1.
Proof.
  pose proof (rxstate_in_1_to_9 (map Some (firstn 8 frame_420))) as H.
  cbv zeta in H. destruct H as (_ & R & N).
  split.
  - apply (R (Some xd5)). vm_compute. discriminate.
  - apply (N x00). reflexivity.
Defined.

(** ** The senders *)

Lemma range_buf_inv_init : range_buf_inv set_range_buf0.
Proof. exists x00, x00, x00. reflexivity. Qed.

Lemma set_range_rejects (r : Z) (w : world) :
  ~ allowed_range r -> set_range r w = (-1, w).
Proof.
  intros H. unfold set_range.
  destruct (Z.eqb_spec r 2000) as [E | _];
    [contradiction H; left; exact E |].
  destruct (Z.eqb_spec r 5000) as [E | _];
    [contradiction H; right; left; exact E |].
  destruct (Z.eqb_spec r 10000) as [E | _];
    [contradiction H; right; right; exact E |].
  reflexivity.
Qed.

(** The frame an accepted call writes, and leaves in the static buffer. *)
Lemma set_range_accepts (r : Z) (w : world) :
  range_buf_inv (range_buf w) -> allowed_range r ->
  let fr := [xff; x01; x99; to_uchar (Z.shiftr r 8); to_uchar (Z.land r 0xff);
             x00; x00; x00;
             to_uchar (- (0x01 + 0x99 + Z.shiftr r 8 + Z.land r 0xff
                          + 0 + 0 + 0))] in
  set_range r w = (0, write fr (set_range_buf fr w)).
Proof.
  intros (b3 & b4 & b8 & B) H fr. subst fr. unfold set_range. rewrite B.
  destruct H as [-> | [-> | ->]]; reflexivity.
Qed.

Lemma set_range_keeps_inv (r : Z) (w : world) :
  range_buf_inv (range_buf w) -> range_buf_inv (range_buf (snd (set_range r w))).
Proof.
  intros H. unfold set_range.
  destruct (negb (r =? 2000) && negb (r =? 5000) && negb (r =? 10000));
    [exact H |].
  destruct H as (b3 & b4 & b8 & B). rewrite B.
  cbn [snd write set_range_buf range_buf store].
  eexists _, _, _. reflexivity.
Qed.

(** C4.  [set_range r] with [r] outside {2000, 5000, 10000} returns -1 and
    leaves the world, and so the writes made on the serial line, untouched.
    With [r] inside the set it returns 0 and makes exactly one write, of the
    nine bytes FF 01 99 HH LL 00 00 00 CK with HH = r >> 8, LL = r & 0xFF
    and CK the negation modulo 256 of the sum of bytes 1 to 7. *)
Theorem set_range_rejects_or_writes (r : Z) (w : world) :
  range_buf_inv (range_buf w) ->
  (~ allowed_range r -> set_range r w = (-1, w))
  /\ (allowed_range r ->
      exists HH LL CK : byte,
        fst (set_range r w) = 0
        /\ link_out (snd (set_range r w))
           = link_out w ++ [[xff; x01; x99; HH; LL; x00; x00; x00; CK]]
        /\ uchar HH = Z.shiftr r 8
        /\ uchar LL = Z.land r 0xff
        /\ uchar CK
           = (- frame_sum [x01; x99; HH; LL; x00; x00; x00]) mod 256).
Proof.
  intros B. split.
  - apply set_range_rejects.
  - intros H. pose proof (set_range_accepts r w B H) as E. cbv zeta in E.
    rewrite E. cbn [fst snd write link_out firstn].
    eexists _, _, _. split; [reflexivity |]. split; [reflexivity |].
    destruct H as [-> | [-> | ->]]; repeat split; reflexivity.
Qed.

Lemma set_range_rejects_or_writes_witness :
  set_range 3000 (world0 []) = (-1, world0 [])
  /\ exists HH LL CK : byte,
       fst (set_range 10000 (world0 [])) = 0
       /\ link_out (snd (set_range 10000 (world0 [])))
          = link_out (world0 [])
            ++ [[xff; x01; x99; HH; LL; x00; x00; x00; CK]]
       /\ uchar HH = Z.shiftr 10000 8
       /\ uchar LL = Z.land 10000 0xff
       /\ uchar CK
          = (- frame_sum [x01; x99; HH; LL; x00; x00; x00]) mod 256.
Proof.
  split.
  - apply (proj1 (set_range_rejects_or_writes 3000 (world0 [])
                    range_buf_inv_init)).
    unfold allowed_range. lia.
  - apply (proj2 (set_range_rejects_or_writes 10000 (world0 [])
                    range_buf_inv_init)).
    unfold allowed_range. lia.
Defined.

Example set_range_10000_frame :
  link_out (snd (set_range 10000 (world0 [])))
  = [[xff; x01; x99; x27; x10; x00; x00; x00; x2f]].
Proof. reflexivity. Qed.

(** A frame that starts with 0xFF and adds up to 0xFF is returned, with a
    kind, by the ninth call of a decoder that was waiting for it. *)
Lemma valid_frame_is_accepted (f : frame) (d : decoder) :
  List.length f = 9%nat -> nth 0 f x00 = xff -> checksum_ok f = true ->
  rxstate d = 1 ->
  last (fst (feed f d)) Packet.None = classify (uchar (nth 1 f x00))
  /\ last (fst (feed f d)) Packet.None <> Packet.None.
Proof.
  intros L H0 Hck H.
  destruct (frame_shape f L H0) as (b1 & b2 & b3 & b4 & b5 & b6 & b7 & b8 & ->).
  pose proof (feed_frame d b1 b2 b3 b4 b5 b6 b7 b8 H) as F.
  cbv zeta in F. rewrite F, Hck. cbn [fst repeat app last nth].
  split; [reflexivity | apply classify_not_None].
Qed.

(** C5.  Each frame written by [request_co2_level], by [abc_off] and by
    [set_range r] with [r] in {2000, 5000, 10000} has nine bytes that add up
    to 0xFF modulo 256.  Its byte 0 is 0xFF and its byte 8 is the negation
    modulo 256 of the sum of bytes 1 to 7, so the frame meets the
    receive-side condition: a decoder in state 1 fed the frame returns a
    kind on the ninth call. *)
Theorem outbound_frames_add_up (w : world) (r : Z) (fr : frame) :
  range_buf_inv (range_buf w) -> allowed_range r ->
  link_out (request_co2_level w) = link_out w ++ [fr]
  \/ link_out (abc_off w) = link_out w ++ [fr]
  \/ link_out (snd (set_range r w)) = link_out w ++ [fr] ->
  List.length fr = 9%nat
  /\ frame_sum fr mod 256 = 0xff
  /\ checksum_ok fr = true
  /\ nth 0 fr x00 = xff
  /\ uchar (nth 8 fr x00) = (- frame_sum (firstn 7 (tl fr))) mod 256
  /\ forall d : decoder,
       rxstate d = 1 -> last (fst (feed fr d)) Packet.None <> Packet.None.
Proof.
  intros B H W.
  assert (K : fr = request_co2_level_buf \/ fr = abc_off_buf
              \/ fr = [xff; x01; x99; x07; xd0; x00; x00; x00; x8f]
              \/ fr = [xff; x01; x99; x13; x88; x00; x00; x00; xcb]
              \/ fr = [xff; x01; x99; x27; x10; x00; x00; x00; x2f]).
  { destruct W as [W | [W | W]].
    - apply app_inv_head in W. injection W as <-. auto.
    - apply app_inv_head in W. injection W as <-. auto.
    - pose proof (set_range_accepts r w B H) as E. cbv zeta in E.
      rewrite E in W. cbn [snd write link_out] in W.
      apply app_inv_head in W. injection W as <-.
      destruct H as [-> | [-> | ->]]; auto. }
  assert (V : List.length fr = 9%nat /\ frame_sum fr mod 256 = 0xff
              /\ checksum_ok fr = true /\ nth 0 fr x00 = xff
              /\ uchar (nth 8 fr x00)
                 = (- frame_sum (firstn 7 (tl fr))) mod 256).
  { destruct K as [-> | [-> | [-> | [-> | ->]]]]; repeat split. }
  destruct V as (L & S & C & H0 & CK).
  repeat split; try assumption.
  intros d Hd. apply valid_frame_is_accepted; assumption.
Qed.

Lemma outbound_frames_add_up_witness :
  frame_sum [xff; x01; x99; x27; x10; x00; x00; x00; x2f] mod 256 = 0xff
  /\ frame_sum request_co2_level_buf mod 256 = 0xff
  /\ frame_sum abc_off_buf mod 256 = 0xff.
Proof.
  assert (A : allowed_range 10000) by (unfold allowed_range; lia).
  split; [| split].
  - apply (outbound_frames_add_up (world0 []) 10000
             [xff; x01; x99; x27; x10; x00; x00; x00; x2f]
             range_buf_inv_init A).
    right; right. reflexivity.
  - apply (outbound_frames_add_up (world0 []) 10000 request_co2_level_buf
             range_buf_inv_init A).
    left. reflexivity.
  - apply (outbound_frames_add_up (world0 []) 10000 abc_off_buf
             range_buf_inv_init A).
    right; left. reflexivity.
Defined.

(** ** The decoder follows the frames on the line *)

Lemma tracks_init : tracks [] rx_init.
Proof. reflexivity. Qed.

(** Closes a goal [_ = _ /\ tracks _ _] once the witnesses are given. *)
Ltac tracks_done :=
  cbn [tracks rxstate packet byte3 co2_level List.length app snd Z.of_nat];
  repeat split; auto; lia.

(** One read: the frame in progress grows by the byte read, or is closed by
    it, or (no byte, or a byte other than 0xFF between frames) stays as it
    is. *)
Lemma tracks_step (part : list byte) (d : decoder) (rd : option byte) :
  tracks part d ->
  exists pre part',
    part ++ bytes_of [rd] = pre ++ part'
    /\ tracks part' (snd (rx_packet rd d)).
Proof.
  intros T. destruct rd as [b |].
  2:{ exists [], part. cbn [bytes_of flat_map]. rewrite app_nil_r. auto. }
  cbn [bytes_of flat_map app]. destruct d as [st ck y pk lv].
  destruct part as [| b0 [| b1 [| b2 [| b3 rest]]]]; cbn [tracks rxstate] in T.
  - subst st. rewrite rx_packet_1. cbn [snd].
    destruct (Z.eqb_spec (uchar b) 0xff) as [E | E].
    + apply uchar_xff in E. subst b. exists [], [xff]. tracks_done.
    + exists [b], []. tracks_done.
  - destruct T as (-> & ->). rewrite rx_packet_2.
    exists [], [xff; b]. tracks_done.
  - destruct T as (-> & -> & P). rewrite rx_packet_3.
    exists [], [xff; b1; b]. cbn [packet] in P. tracks_done.
  - destruct T as (-> & -> & P & B). rewrite rx_packet_4.
    cbn [packet byte3] in P, B. subst y.
    exists [], [xff; b1; b2; b]. 
    cbn [tracks rxstate packet byte3 co2_level List.length app snd Z.of_nat].
    repeat split; auto; try lia.
    intros K. rewrite K. reflexivity.
  - destruct T as (-> & S & L & P & C).
    cbn [packet co2_level] in P, C.
    destruct rest as [| r0 [| r1 [| r2 [| r3 [| r4 rest]]]]];
      cbn [List.length] in S, L; try lia; cbn in S; subst st.
    + rewrite rx_packet_5. exists [], [xff; b1; b2; b3; b]. tracks_done.
    + rewrite rx_packet_6. exists [], [xff; b1; b2; b3; r0; b]. tracks_done.
    + rewrite rx_packet_7. exists [], [xff; b1; b2; b3; r0; r1; b].
      tracks_done.
    + rewrite rx_packet_8. exists [], [xff; b1; b2; b3; r0; r1; r2; b].
      tracks_done.
    + rewrite rx_packet_9. exists [xff; b1; b2; b3; r0; r1; r2; r3; b], [].
      tracks_done.
Qed.

Lemma bytes_of_app (r1 r2 : list (option byte)) :
  bytes_of (r1 ++ r2) = bytes_of r1 ++ bytes_of r2.
Proof. unfold bytes_of. apply flat_map_app. Qed.

Lemma rx_run_snoc (rds : list (option byte)) (rd : option byte) (d : decoder) :
  snd (rx_run (rds ++ [rd]) d) = snd (rx_packet rd (snd (rx_run rds d))).
Proof.
  rewrite rx_run_app. cbn [snd rx_run].
  destruct (rx_packet rd (snd (rx_run rds d))). reflexivity.
Qed.

(** Whatever has been read, the decoder tracks a suffix of the bytes read. *)
Lemma rx_run_tracks (rds : list (option byte)) :
  exists pre part,
    bytes_of rds = pre ++ part /\ tracks part (snd (rx_run rds rx_init)).
Proof.
  induction rds as [| rd rds IH] using rev_ind.
  - exists [], []. split; reflexivity.
  - destruct IH as (pre & part & B & T).
    destruct (tracks_step part _ rd T) as (pre' & part' & E & T').
    exists (pre ++ pre'), part'. rewrite rx_run_snoc. split; [| exact T'].
    rewrite bytes_of_app, B, <- !app_assoc, E. reflexivity.
Qed.

(** A [CO2Level] return closes a frame FF 86 hi lo .. .. .. .. ck, and the
    measurement then is 256*hi + lo. *)
Lemma co2_return_frame (rds : list (option byte)) (rd : option byte) :
  let d := snd (rx_run rds rx_init) in
  fst (rx_packet rd d) = CO2Level ->
  exists pre hi lo p4 p5 p6 p7 ck,
    bytes_of (rds ++ [rd]) = pre ++ [xff; x86; hi; lo; p4; p5; p6; p7; ck]
    /\ co2_level (snd (rx_packet rd d)) = 256 * uchar hi + uchar lo.
Proof.
  intros d R.
  assert (NN : fst (rx_packet rd d) <> Packet.None) by (rewrite R; discriminate).
  destruct (rx_packet_returns rd d NN) as (b & -> & S9 & _ & P).
  rewrite R in P. symmetry in P.
  destruct (rx_run_tracks rds) as (pre & part & B & T). fold d in T.
  rewrite bytes_of_app, B. cbn [bytes_of flat_map app].
  destruct d as [st ck y pk lv]. cbn [rxstate packet] in S9, P. subst st pk.
  rewrite rx_packet_9. cbn [snd co2_level].
  destruct part as [| b0 [| b1 [| b2 [| b3 rest]]]]; cbn [tracks rxstate] in T;
    try lia; try (destruct T as (_ & T & _); lia).
  destruct T as (-> & S & L & K & C). cbn [packet co2_level] in K, C.
  symmetry in K. apply classify_CO2Level, uchar_x86 in K. subst b1.
  destruct rest as [| r0 [| r1 [| r2 [| r3 [| r4 rest]]]]];
    cbn [List.length] in S, L; try lia.
  exists pre, b2, b3, r0, r1, r2, r3, b. rewrite <- app_assoc.
  split; [reflexivity | apply C; reflexivity].
Qed.

(** ** What a run of [main] preserves *)

Lemma reachable_init : reachable rx_init.
Proof. exists []. reflexivity. Qed.

Lemma reachable_step (rd : option byte) (d : decoder) :
  reachable d -> reachable (snd (rx_packet rd d)).
Proof.
  intros [rds ->]. exists (rds ++ [rd]). symmetry. apply rx_run_snoc.
Qed.

Lemma reachable_reading (rd : option byte) (d : decoder) :
  reachable d -> fst (rx_packet rd d) = CO2Level ->
  is_reading (co2_level (snd (rx_packet rd d))).
Proof.
  intros [rds ->] R.
  destruct (co2_return_frame rds rd R)
    as (pre & hi & lo & p4 & p5 & p6 & p7 & ck & _ & E).
  rewrite E. pose proof (uchar_range hi). pose proof (uchar_range lo).
  unfold is_reading. lia.
Qed.

(** [rx_packet(fd)] touches the decoder and the pending input only. *)
Lemma rx_packet_fd_frame (w : world) :
  let w' := snd (rx_packet_fd w) in
  link_out w' = link_out w /\ stdout w' = stdout w /\ stderr w' = stderr w
  /\ range_buf w' = range_buf w
  /\ exists rd, rx_packet rd (dec w) = (fst (rx_packet_fd w), dec w').
Proof.
  unfold rx_packet_fd, read.
  destruct (link_in w) as [| rd rest].
  - destruct (rx_packet None (dec w)) as [p d] eqn:E. cbn.
    repeat split. exists None. exact E.
  - cbn [dec set_link_in]. destruct (rx_packet rd (dec w)) as [p d] eqn:E. cbn.
    repeat split. exists rd. exact E.
Qed.

Lemma rx_packet_fd_inv (w : world) :
  world_inv w -> world_inv (snd (rx_packet_fd w)).
Proof.
  intros [R F].
  destruct (rx_packet_fd_frame w) as (_ & O & _ & _ & rd & E).
  split.
  - replace (dec (snd (rx_packet_fd w))) with (snd (rx_packet rd (dec w)))
      by (rewrite E; reflexivity).
    apply reachable_step, R.
  - rewrite O. exact F.
Qed.

Lemma rx_packet_fd_reading (w : world) :
  world_inv w -> fst (rx_packet_fd w) = CO2Level ->
  is_reading (co2_level (dec (snd (rx_packet_fd w)))).
Proof.
  intros [R _] K.
  destruct (rx_packet_fd_frame w) as (_ & _ & _ & _ & rd & E).
  replace (dec (snd (rx_packet_fd w))) with (snd (rx_packet rd (dec w)))
    by (rewrite E; reflexivity).
  apply reachable_reading; [exact R |]. rewrite E. exact K.
Qed.

Lemma set_range_inv (r : Z) (w : world) :
  world_inv w -> world_inv (snd (set_range r w)).
Proof.
  intros H. unfold set_range.
  destruct (negb (r =? 2000) && negb (r =? 5000) && negb (r =? 10000));
    exact H.
Qed.

Lemma wait_response_inv (expect : PacketType) (ref_time : Z) (clock : list Z)
    (w : world) :
  world_inv w ->
  match wait_response expect ref_time clock w with
  | Acked _ w' | TimedOut _ w' | Waiting w' => world_inv w'
  end.
Proof.
  revert w. induction clock as [| now clock IH]; intros w H; cbn [wait_response].
  - exact H.
  - destruct (now - ref_time <? 2); [| exact H].
    pose proof (rx_packet_fd_inv w H) as H1.
    destruct (rx_packet_fd w) as [p w1]. cbn [snd] in H1.
    destruct (PacketType_eqb p expect); [exact H1 | apply IH, H1].
Qed.

Lemma steady_iter_inv (cur_time ref_time : Z) (w : world) :
  world_inv w -> world_inv (snd (steady_iter cur_time (ref_time, w))).
Proof.
  intros H. unfold steady_iter.
  pose proof (rx_packet_fd_inv w H) as H1.
  pose proof (rx_packet_fd_reading w H) as H2.
  destruct (rx_packet_fd w) as [p w1]. cbn [fst snd] in H1, H2.
  assert (H3 : world_inv (if PacketType_eqb p CO2Level
                          then print_int (co2_level (dec w1)) w1 else w1)).
  { destruct (PacketType_eqb p CO2Level) eqn:E; [| exact H1].
    apply PacketType_eqb_eq in E. destruct H1 as [R F].
    split; [exact R |]. cbn [print_int stdout].
    apply Forall_app. split; [exact F |]. constructor; [auto | constructor]. }
  destruct (cur_time - ref_time >? 10); exact H3.
Qed.

Lemma steady_run_inv (clock : list Z) (ref_time : Z) (w : world) :
  world_inv w -> world_inv (snd (steady_run clock (ref_time, w))).
Proof.
  revert ref_time w. unfold steady_run.
  induction clock as [| t clock IH]; intros ref_time w H; [exact H |].
  cbn [fold_left]. pose proof (steady_iter_inv t ref_time w H) as H1.
  destruct (steady_iter t (ref_time, w)) as [ref' w']. apply IH, H1.
Qed.

Lemma main_inv (clock : list Z) (w : world) :
  world_inv w -> world_inv (snd (main clock w)).
Proof.
  intros H. unfold main, main_init.
  assert (H0 : world_inv (abc_off w)) by exact H.
  destruct clock as [| t0 c0]; [exact H0 |].
  pose proof (wait_response_inv ABCOff t0 c0 (abc_off w) H0) as H1.
  destruct (wait_response ABCOff t0 c0 (abc_off w)) as [c1 w1 | c1 w1 | w1];
    try exact H1.
  pose proof (set_range_inv 10000 w1 H1) as H2.
  destruct c1 as [| t1 c1]; [exact H2 |].
  pose proof (wait_response_inv SetRange t1 c1 _ H2) as H3.
  destruct (wait_response SetRange t1 c1 (snd (set_range 10000 w1)))
    as [c2 w2 | c2 w2 | w2]; try exact H3.
  destruct c2 as [| t2 c2]; [exact H3 |].
  cbn [snd]. apply steady_run_inv, H3.
Qed.

(** ** What is printed *)

(** A run in which both acknowledgements and one reading arrive: the
    handshake succeeds and the polling loop prints the reading. *)
Example main_prints_420 :
  main (repeat 0 30)
       (world0 (map Some (ack_abc_off ++ ack_set_range ++ frame_420)))
  = (None,
     {| dec := {| rxstate := 1; checksum := 0xff; byte3 := 1;
                  packet := CO2Level; co2_level := 420 |};
        link_in := [];
        link_out := [abc_off_buf; set_range_10000_buf];
        range_buf := set_range_10000_buf;
        stdout := [420];
        stderr := [] |}).
Proof. reflexivity. Qed.

(** C10.  The measurement starts at the sentinel -1.  A turn of the polling
    loop prints exactly when its call of the decoder returns [CO2Level], and
    prints the measurement.  At such a return the bytes read so far end
    with a frame FF 86 hi lo .. .. .. .. ck and the measurement is
    256*hi + lo.  Hence every line on standard output, in any run of [main],
    is an integer in 0..65535, never the sentinel. *)
Theorem printed_lines_are_readings :
  co2_level rx_init = -1
  /\ (forall (cur_time ref_time : Z) (w : world),
         stdout (snd (steady_iter cur_time (ref_time, w)))
         = if PacketType_eqb (fst (rx_packet_fd w)) CO2Level
           then stdout w ++ [co2_level (dec (snd (rx_packet_fd w)))]
           else stdout w)
  /\ (forall (rds : list (option byte)) (rd : option byte),
         let d := snd (rx_run rds rx_init) in
         fst (rx_packet rd d) = CO2Level ->
         exists pre hi lo p4 p5 p6 p7 ck,
           bytes_of (rds ++ [rd])
           = pre ++ [xff; x86; hi; lo; p4; p5; p6; p7; ck]
           /\ co2_level (snd (rx_packet rd d)) = 256 * uchar hi + uchar lo)
  /\ (forall (clock : list Z) (link : list (option byte)) (v : Z),
         In v (stdout (snd (main clock (world0 link)))) ->
         0 <= v <= 65535 /\ v <> -1).
Proof.
  split; [reflexivity |]. split; [| split].
  - intros cur_time ref_time w. unfold steady_iter.
    destruct (rx_packet_fd_frame w) as (_ & O & _). cbv zeta in O.
    destruct (rx_packet_fd w) as [p w1]. cbn [fst snd] in O |- *.
    destruct (PacketType_eqb p CO2Level);
      destruct (cur_time - ref_time >? 10);
      cbn [snd request_co2_level write print_int stdout]; rewrite O;
      reflexivity.
  - exact co2_return_frame.
  - intros clock link v H.
    assert (I : world_inv (world0 link)).
    { split; [exact reachable_init | constructor]. }
    destruct (main_inv clock (world0 link) I) as [_ F].
    rewrite Forall_forall in F. specialize (F v H).
    unfold is_reading in F. lia.
Qed.

Lemma printed_lines_are_readings_witness :
  0 <= 420 <= 65535 /\ 420 <> -1.
Proof.
  apply (proj2 (proj2 (proj2 printed_lines_are_readings))
           (repeat 0 30)
           (map Some (ack_abc_off ++ ack_set_range ++ frame_420)) 420).
  vm_compute. left. reflexivity.
Defined.

(** ** The request cadence *)

Lemma requests_write (buf : frame) (w : world) :
  List.length buf = 9%nat ->
  requests (write buf w)
  = requests w + (if list_eq_dec Byte.byte_eq_dec buf request_co2_level_buf
                  then 1 else 0).
Proof.
  intros L. unfold requests, write. cbn [link_out].
  rewrite count_occ_app, firstn_all2 by lia. cbn [count_occ].
  rewrite Nat2Z.inj_add.
  destruct (list_eq_dec Byte.byte_eq_dec buf request_co2_level_buf);
    reflexivity.
Qed.

(** One turn of the polling loop: a request is written exactly when the
    clock reading exceeds [ref_time + 10], and [ref_time] then advances by
    10, not to the reading. *)
Lemma steady_iter_cadence (cur_time ref_time : Z) (w : world) :
  let st := steady_iter cur_time (ref_time, w) in
  (cur_time > ref_time + 10 ->
   fst st = ref_time + 10
   /\ link_out (snd st) = link_out w ++ [request_co2_level_buf]
   /\ requests (snd st) = requests w + 1)
  /\ (cur_time <= ref_time + 10 ->
      fst st = ref_time /\ link_out (snd st) = link_out w
      /\ requests (snd st) = requests w).
Proof.
  cbv zeta. unfold steady_iter.
  destruct (rx_packet_fd_frame w) as (O & _). cbv zeta in O.
  destruct (rx_packet_fd w) as [p w1]. cbn [snd] in O.
  set (w2 := if PacketType_eqb p CO2Level
             then print_int (co2_level (dec w1)) w1 else w1).
  assert (O2 : link_out w2 = link_out w).
  { subst w2. destruct (PacketType_eqb p CO2Level); exact O. }
  assert (R2 : requests w2 = requests w).
  { unfold requests. rewrite O2. reflexivity. }
  destruct (Z.gtb_spec (cur_time - ref_time) 10) as [G | G];
    cbn [fst snd]; split; intros H; try lia.
  - unfold request_co2_level. rewrite requests_write by reflexivity.
    cbn [write link_out]. rewrite O2, R2.
    repeat split.
  - auto.
Qed.

Lemma last_cons_default {A : Type} (l : list A) (a d : A) :
  last (a :: l) d = last l a.
Proof.
  revert a d. induction l as [| b l IH]; intros a d; [reflexivity |].
  change (last (a :: b :: l) d) with (last (b :: l) d).
  rewrite (IH b d). symmetry. apply IH.
Qed.

Lemma steady_run_cons (t : Z) (clock : list Z) (st : Z * world) :
  steady_run (t :: clock) st = steady_run clock (steady_iter t st).
Proof. reflexivity. Qed.

(** [ref_time] only ever moves in steps of 10, one per request written. *)
Lemma steady_run_ref_time (clock : list Z) (ref_time : Z) (w : world) :
  let st := steady_run clock (ref_time, w) in
  fst st = ref_time + 10 * (requests (snd st) - requests w)
  /\ 0 <= requests (snd st) - requests w <= Z.of_nat (List.length clock).
Proof.
  revert ref_time w. induction clock as [| t clock IH]; intros ref_time w.
  - unfold steady_run. cbn [fold_left fst snd List.length Z.of_nat]. lia.
  - cbv zeta. rewrite steady_run_cons.
    destruct (steady_iter_cadence t ref_time w) as [Hgt Hle]. cbv zeta in *.
    destruct (steady_iter t (ref_time, w)) as [ref1 w1]. cbn [fst snd] in *.
    destruct (IH ref1 w1) as [E B].
    rewrite E. cbn [List.length]. rewrite Nat2Z.inj_succ.
    destruct (Z_gt_le_dec t (ref_time + 10)) as [G | G].
    + destruct (Hgt G) as (-> & _ & R). lia.
    + destruct (Hle G) as (-> & _ & R). lia.
Qed.

(** As long as no turn lets the clock advance by more than 10 seconds, after
    the loop has seen the clock advance to [cur] it has
    [ref_time <= cur <= ref_time + 10], and [ref_time < cur] once a request
    has been written. *)
Lemma steady_run_keeps_up (clock : list Z) (prev ref_time : Z) (w : world) :
  paced prev clock -> ref_time <= prev <= ref_time + 10 ->
  let st := steady_run clock (ref_time, w) in
  let cur := last clock prev in
  fst st <= cur <= fst st + 10
  /\ prev <= cur
  /\ (1 <= requests (snd st) - requests w -> fst st < cur).
Proof.
  revert prev ref_time w.
  induction clock as [| t clock IH]; intros prev ref_time w T B.
  - unfold steady_run. cbn [fold_left fst snd last]. lia.
  - cbv zeta. rewrite steady_run_cons, last_cons_default.
    destruct T as [Tt T].
    destruct (steady_iter_cadence t ref_time w) as [Hgt Hle]. cbv zeta in *.
    destruct (steady_iter t (ref_time, w)) as [ref1 w1]. cbn [fst snd] in *.
    destruct (Z_gt_le_dec t (ref_time + 10)) as [G | G].
    + destruct (Hgt G) as (-> & _ & R).
      destruct (IH t (ref_time + 10) w1 T ltac:(lia)) as (I1 & I2 & I3).
      pose proof (steady_run_ref_time clock (ref_time + 10) w1) as [E _].
      cbv zeta in E. lia.
    + destruct (Hle G) as (-> & _ & R).
      destruct (IH t ref_time w1 T ltac:(lia)) as (I1 & I2 & I3).
      rewrite R in I3. lia.
Qed.

(** C3, as stated, fails, in two ways.  Ten seconds after the loop is
    entered, with the loop turning once per second, no request has been
    written, whereas floor(10 / 10) = 1: the count is floor((d - 1) / 10).
    And the count does depend on jitter: when one turn lets the clock
    advance by 11 seconds (readings 10, then 21), a single request has been
    written at second 21, whereas floor(21 / 10) = floor(20 / 10) = 2. *)
Lemma no_request_after_ten_seconds :
  let clock := [0; 1; 2; 3; 4; 5; 6; 7; 8; 9; 10] in
  let st := steady_run clock (0, world0 []) in
  let late := [10; 21] in
  let st' := steady_run late (0, world0 []) in
  ticks 0 clock
  /\ requests (snd st) = 0
  /\ (last clock 0 - 0) / 10 = 1
  /\ requests (snd st) <> (last clock 0 - 0) / 10
  /\ requests (snd st') = 1
  /\ requests (snd st') <> (last late 0 - 0) / 10
  /\ requests (snd st') <> (last late 0 - 0 - 1) / 10.
Proof.
  cbv zeta. split; [cbn; lia |].
  repeat split; try reflexivity; vm_compute; discriminate.
Qed.

(** C3, amended.  In a turn of the polling loop a request is written
    exactly when the clock reading (whole seconds) exceeds [ref_time + 10],
    and [ref_time] then advances by exactly 10, not to the reading; so
    [ref_time] is always its initial value plus 10 per request written.
    Consequently, whatever the jitter of the turns as long as none lets the
    clock advance by more than 10 seconds, the number of requests written
    by the time the clock reads d >= 1 seconds past the entry of the loop is
    floor((d - 1) / 10): the first request goes out at second 11, not 10,
    and the following ones every 10 seconds. *)
Theorem request_cadence (clock : list Z) (ref_time : Z) (w : world) :
  let st := steady_run clock (ref_time, w) in
  let n := requests (snd st) - requests w in
  let d := last clock ref_time - ref_time in
  (forall (cur_time r : Z) (w0 : world),
      let st1 := steady_iter cur_time (r, w0) in
      (cur_time > r + 10 ->
       fst st1 = r + 10
       /\ link_out (snd st1) = link_out w0 ++ [request_co2_level_buf])
      /\ (cur_time <= r + 10 ->
          fst st1 = r /\ link_out (snd st1) = link_out w0))
  /\ fst st = ref_time + 10 * n
  /\ (paced ref_time clock -> 1 <= d -> n = (d - 1) / 10).
Proof.
  cbv zeta. split; [| split].
  - intros cur_time r w0.
    destruct (steady_iter_cadence cur_time r w0) as [Hgt Hle]. cbv zeta in *.
    split; intros H; [destruct (Hgt H) as (? & ? & _)
                     | destruct (Hle H) as (? & ? & _)]; auto.
  - apply steady_run_ref_time.
  - intros T D.
    destruct (steady_run_keeps_up clock ref_time ref_time w T ltac:(lia))
      as (I1 & I2 & I3).
    destruct (steady_run_ref_time clock ref_time w) as [E [N _]].
    cbv zeta in *.
    set (n := requests (snd (steady_run clock (ref_time, w))) - requests w) in *.
    set (cur := last clock ref_time) in *.
    assert (K : n = 0 \/ 1 <= n) by lia.
    apply Z.div_unique with (r := cur - ref_time - 1 - 10 * n); lia.
Qed.

Lemma request_cadence_witness :
  requests (snd (steady_run [0; 7; 17; 17; 26; 36; 43] (0, world0 [])))
  - requests (world0 [])
  = (last [0; 7; 17; 17; 26; 36; 43] 0 - 0 - 1) / 10.
Proof.
  apply (proj2 (proj2 (request_cadence [0; 7; 17; 17; 26; 36; 43]
                         0 (world0 [])))).
  - cbn. lia.
  - cbn. lia.
Defined.

Example requests_under_jitter :
  requests (snd (steady_run [0; 7; 17; 17; 26; 36; 43] (0, world0 []))) = 4.
Proof. reflexivity. Qed.

Example request_at_second_11 :
  requests (snd (steady_run [0; 1; 2; 3; 4; 5; 6; 7; 8; 9; 10; 11]
                   (0, world0 []))) = 1.
Proof. reflexivity. Qed.

(** ** The start-up handshake *)

Lemma same_io_refl (w : world) : same_io w w.
Proof. repeat split. Qed.

Lemma same_io_trans (w1 w2 w3 : world) :
  same_io w1 w2 -> same_io w2 w3 -> same_io w1 w3.
Proof.
  unfold same_io. intros (A1 & A2 & A3 & A4) (B1 & B2 & B3 & B4).
  repeat split; congruence.
Qed.

Lemma rx_packet_fd_same_io (w : world) : same_io w (snd (rx_packet_fd w)).
Proof.
  destruct (rx_packet_fd_frame w) as (A & B & C & D & _).
  repeat split; assumption.
Qed.

(** How a waiting loop can end.  It times out only on a clock reading two
    seconds or more past [ref_time], all earlier readings being before the
    deadline; it succeeds only on a call of the decoder that returned the
    awaited kind, made before the deadline; in between it has written
    nothing. *)
Lemma wait_response_spec (expect : PacketType) (ref_time : Z)
    (clock : list Z) (w : world) :
  match wait_response expect ref_time clock w with
  | TimedOut clock' w' =>
      same_io w w'
      /\ exists pre t, clock = pre ++ t :: clock'
                       /\ Forall (before_deadline ref_time) pre
                       /\ 2 <= t - ref_time
  | Acked clock' w' =>
      same_io w w'
      /\ exists pre t w0, clock = pre ++ t :: clock'
                          /\ Forall (before_deadline ref_time) (pre ++ [t])
                          /\ rx_packet_fd w0 = (expect, w')
  | Waiting w' => same_io w w' /\ Forall (before_deadline ref_time) clock
  end.
Proof.
  revert w. induction clock as [| now clock IH]; intros w; cbn [wait_response].
  - split; [apply same_io_refl | constructor].
  - destruct (Z.ltb_spec (now - ref_time) 2) as [L | G].
    + pose proof (rx_packet_fd_same_io w) as S.
      destruct (rx_packet_fd w) as [p w1] eqn:E. cbn [snd] in S.
      destruct (PacketType_eqb p expect) eqn:P.
      * apply PacketType_eqb_eq in P. subst p. split; [exact S |].
        exists [], now, w. repeat split; [| exact E].
        constructor; [exact L | constructor].
      * specialize (IH w1).
        destruct (wait_response expect ref_time clock w1) as [c' w' | c' w' | w'].
        -- destruct IH as (S' & pre & t & w0 & -> & F & R). split.
           { eapply same_io_trans; eassumption. }
           exists (now :: pre), t, w0. repeat split; [| exact R].
           constructor; assumption.
        -- destruct IH as (S' & pre & t & -> & F & D). split.
           { eapply same_io_trans; eassumption. }
           exists (now :: pre), t. repeat split; [| exact D].
           constructor; assumption.
        -- destruct IH as (S' & F). split.
           { eapply same_io_trans; eassumption. }
           constructor; assumption.
    + split; [apply same_io_refl |]. exists [], now.
      repeat split; [constructor | lia].
Qed.

(** On a silent line the decoder never returns a kind, so a waiting loop runs
    until its deadline and then times out. *)
Lemma wait_response_silent (expect : PacketType) (ref_time : Z)
    (pre post : list Z) (t : Z) (w : world) :
  expect <> Packet.None -> silent (link_in w) ->
  Forall (before_deadline ref_time) pre -> 2 <= t - ref_time ->
  exists w', wait_response expect ref_time (pre ++ t :: post) w
             = TimedOut post w'.
Proof.
  intros NE. revert w. induction pre as [| now pre IH]; intros w S F D.
  - cbn [app wait_response].
    destruct (Z.ltb_spec (t - ref_time) 2) as [L | G]; [lia |]. eauto.
  - inversion F as [| ? ? L F']; subst. unfold before_deadline in L.
    cbn [app wait_response].
    destruct (Z.ltb_spec (now - ref_time) 2) as [_ | G]; [| lia].
    assert (R : exists w1, rx_packet_fd w = (Packet.None, w1)
                           /\ silent (link_in w1)).
    { unfold rx_packet_fd, read. destruct (link_in w) as [| rd rest] eqn:E.
      - rewrite rx_packet_timeout. eexists. split; [reflexivity |].
        cbn [set_dec link_in]. rewrite E. constructor.
      - inversion S as [| ? ? Hrd Hrest]; subst.
        cbn [dec set_link_in]. rewrite rx_packet_timeout.
        eexists. split; [reflexivity |]. exact Hrest. }
    destruct R as (w1 & -> & S1).
    destruct expect; try (contradiction NE; reflexivity);
      cbn [PacketType_eqb]; apply IH; assumption.
Qed.

Lemma set_range_10000 (w : world) :
  range_buf_inv (range_buf w) ->
  let w' := snd (set_range 10000 w) in
  link_out w' = link_out w ++ [set_range_10000_buf]
  /\ stdout w' = stdout w /\ stderr w' = stderr w.
Proof.
  intros B.
  assert (A : allowed_range 10000) by (unfold allowed_range; lia).
  pose proof (set_range_accepts 10000 w B A) as E. cbv zeta in *.
  rewrite E. repeat split.
Qed.

Lemma rx_run_cons (rd : option byte) (rds : list (option byte)) (d : decoder) :
  rx_run (rd :: rds) d
  = (fst (rx_packet rd d) :: fst (rx_run rds (snd (rx_packet rd d))),
     snd (rx_run rds (snd (rx_packet rd d)))).
Proof.
  cbn [rx_run]. destruct (rx_packet rd d) as [p d1]. cbn [fst snd].
  destruct (rx_run rds d1); reflexivity.
Qed.

Lemma rx_run_length (rds : list (option byte)) (d : decoder) :
  List.length (fst (rx_run rds d)) = List.length rds.
Proof.
  revert d. induction rds as [| rd rds IH]; intros d; [reflexivity |].
  rewrite rx_run_cons. cbn [fst List.length]. rewrite IH. reflexivity.
Qed.

Lemma rx_packet_fd_reads (w : world) (n : nat) :
  rx_packet_fd w
  = (fst (rx_packet (hd None (reads (S n) (link_in w))) (dec w)),
     set_dec (snd (rx_packet (hd None (reads (S n) (link_in w))) (dec w)))
       (set_link_in (tl (link_in w)) w))
  /\ reads (S n) (link_in w)
     = hd None (reads (S n) (link_in w)) :: reads n (tl (link_in w)).
Proof.
  unfold rx_packet_fd, read. cbn [reads].
  destruct w as [d li lo rb so se]. cbn [link_in dec].
  destruct li as [| rd rest]; cbn [hd tl set_link_in dec].
  - destruct (rx_packet None d) as [p d1] eqn:E. cbn. auto.
  - destruct (rx_packet rd d) as [p d1] eqn:E. cbn. auto.
Qed.

(** A waiting loop ends at the first return of the awaited kind; the returns
    of other kinds made before it are dropped. *)
Lemma wait_response_acks (expect : PacketType) (ref_time : Z)
    (rds : list (option byte)) :
  forall (ps : list PacketType) (c post : list Z) (w : world)
         (rest : list (option byte)),
    link_in w = rds ++ rest ->
    fst (rx_run rds (dec w)) = ps ++ [expect] -> ~ In expect ps ->
    List.length c = List.length rds ->
    Forall (before_deadline ref_time) c ->
    wait_response expect ref_time (c ++ post) w
    = Acked post (set_dec (snd (rx_run rds (dec w))) (set_link_in rest w)).
Proof.
  induction rds as [| rd rds IH]; intros ps c post w rest Hl Hr Hn Hc Hf.
  - cbn [rx_run fst] in Hr. destruct ps; discriminate Hr.
  - destruct c as [| t c]; [discriminate Hc |].
    injection Hc as Hc. inversion Hf as [| ? ? Ht Hf']; subst.
    unfold before_deadline in Ht.
    cbn [app wait_response].
    destruct (Z.ltb_spec (t - ref_time) 2) as [_ | G]; [| lia].
    unfold rx_packet_fd, read. rewrite Hl. cbn [app dec set_link_in].
    rewrite rx_run_cons in Hr. rewrite rx_run_cons. cbn [fst snd] in *.
    destruct (rx_packet rd (dec w)) as [p d1]. cbn [fst snd] in *.
    destruct ps as [| p0 ps].
    + injection Hr as -> Hr.
      assert (rds = []) as ->.
      { apply length_zero_iff_nil. rewrite <- (rx_run_length rds d1), Hr.
        reflexivity. }
      destruct c; [| discriminate Hc].
      rewrite PacketType_eqb_refl. reflexivity.
    + injection Hr as -> Hr.
      destruct (PacketType_eqb p0 expect) eqn:E.
      { apply PacketType_eqb_eq in E. contradiction Hn. left. auto. }
      rewrite (IH ps c post _ rest); try assumption; try reflexivity.
      intros I. apply Hn. right. exact I.
Qed.

Lemma skipn_S_tl {A : Type} (n : nat) (l : list A) :
  skipn (S n) l = skipn n (tl l).
Proof. destruct l; [destruct n |]; reflexivity. Qed.

(** A waiting loop whose deadline comes before the awaited kind is returned
    times out, having called the decoder once per clock reading taken
    before the deadline. *)
Lemma wait_response_times_out (expect : PacketType) (ref_time : Z)
    (c : list Z) :
  forall (post : list Z) (t : Z) (w : world),
    Forall (before_deadline ref_time) c -> 2 <= t - ref_time ->
    ~ In expect (fst (rx_run (reads (List.length c) (link_in w)) (dec w))) ->
    wait_response expect ref_time (c ++ t :: post) w
    = TimedOut post
        (set_dec (snd (rx_run (reads (List.length c) (link_in w)) (dec w)))
           (set_link_in (skipn (List.length c) (link_in w)) w)).
Proof.
  induction c as [| t1 c IH]; intros post t w Hf Hd Hn.
  - cbn [app wait_response List.length reads rx_run snd skipn].
    destruct (Z.ltb_spec (t - ref_time) 2) as [L | _]; [lia |].
    destruct w; reflexivity.
  - inversion Hf as [| ? ? Ht Hf']; subst. unfold before_deadline in Ht.
    cbn [app wait_response List.length].
    destruct (Z.ltb_spec (t1 - ref_time) 2) as [_ | G]; [| lia].
    cbn [List.length] in Hn.
    destruct (rx_packet_fd_reads w (List.length c)) as [E R].
    rewrite R, rx_run_cons in Hn. rewrite R, rx_run_cons, E.
    cbn [fst snd] in *.
    destruct (PacketType_eqb _ expect) eqn:P.
    { apply PacketType_eqb_eq in P. contradiction Hn. left. exact P. }
    rewrite IH; try assumption.
    + cbn [set_dec set_link_in dec link_in]. rewrite skipn_S_tl.
      reflexivity.
    + cbn [set_dec set_link_in dec link_in]. intros I. apply Hn. right.
      exact I.
Qed.

(** C8.  [main] first writes the [abc_off] frame and then calls the decoder,
    once per clock reading, until it returns [ABCOff] or a reading is two
    seconds or more past the start of the wait; only after an [ABCOff]
    return does it write the [set_range(10000)] frame and wait in the same
    way for [SetRange].  Stated on the inputs alone (the outcomes of the
    reads and the clock readings):
    - if the first deadline comes and no call made before it returned
      [ABCOff] (returns of other kinds do not count, nor does a frame still
      in progress), the process writes the message naming 'ABC off' to
      standard error and returns 1, having written only the [abc_off]
      frame;
    - if [ABCOff] is returned in time but the second deadline comes with no
      [SetRange] return, it writes the message naming 'Set range' and
      returns 1, having written both frames;
    - if both are returned in time, it enters the polling loop.
    Every exit is with status 1 and one of the two messages.  In
    particular, on a line that never delivers a byte and a clock that
    reaches the deadline, the run ends with the 'ABC off' message, status 1
    and nothing but the [abc_off] frame written. *)
Theorem handshake_outcomes (clock : list Z) (link : list (option byte)) :
  (match main_init clock (world0 link) with
   | Exit code w =>
       code = 1 /\ code <> 0 /\ stdout w = []
       /\ ((stderr w = [msg_abc_off] /\ link_out w = [abc_off_buf])
           \/ (stderr w = [msg_set_range]
               /\ link_out w = [abc_off_buf; set_range_10000_buf]))
   | Steady _ _ w =>
       stderr w = [] /\ stdout w = []
       /\ link_out w = [abc_off_buf; set_range_10000_buf]
   | Cut w =>
       stderr w = [] /\ stdout w = []
       /\ (link_out w = [abc_off_buf]
           \/ link_out w = [abc_off_buf; set_range_10000_buf])
   end)
  /\ (forall t0 c1 t post,
         clock = t0 :: c1 ++ t :: post ->
         Forall (before_deadline t0) c1 -> 2 <= t - t0 ->
         ~ In ABCOff (fst (rx_run (reads (List.length c1) link) rx_init)) ->
         main_init clock (world0 link)
         = Exit 1
             {| dec := snd (rx_run (reads (List.length c1) link) rx_init);
                link_in := skipn (List.length c1) link;
                link_out := [abc_off_buf];
                range_buf := set_range_buf0;
                stdout := [];
                stderr := [msg_abc_off] |})
  /\ (forall rds1 ps1 link2 t0 c1 t1 c2 t post,
         link = rds1 ++ link2 ->
         clock = t0 :: c1 ++ t1 :: c2 ++ t :: post ->
         fst (rx_run rds1 rx_init) = ps1 ++ [ABCOff] -> ~ In ABCOff ps1 ->
         List.length c1 = List.length rds1 ->
         Forall (before_deadline t0) c1 ->
         Forall (before_deadline t1) c2 -> 2 <= t - t1 ->
         ~ In SetRange
             (fst (rx_run (reads (List.length c2) link2)
                     (snd (rx_run rds1 rx_init)))) ->
         main_init clock (world0 link)
         = Exit 1
             {| dec := snd (rx_run (reads (List.length c2) link2)
                              (snd (rx_run rds1 rx_init)));
                link_in := skipn (List.length c2) link2;
                link_out := [abc_off_buf; set_range_10000_buf];
                range_buf := set_range_10000_buf;
                stdout := [];
                stderr := [msg_set_range] |})
  /\ (forall rds1 ps1 rds2 ps2 rest t0 c1 t1 c2 t2 post,
         link = rds1 ++ rds2 ++ rest ->
         clock = t0 :: c1 ++ t1 :: c2 ++ t2 :: post ->
         fst (rx_run rds1 rx_init) = ps1 ++ [ABCOff] -> ~ In ABCOff ps1 ->
         fst (rx_run rds2 (snd (rx_run rds1 rx_init))) = ps2 ++ [SetRange] ->
         ~ In SetRange ps2 ->
         List.length c1 = List.length rds1 ->
         Forall (before_deadline t0) c1 ->
         List.length c2 = List.length rds2 ->
         Forall (before_deadline t1) c2 ->
         main_init clock (world0 link)
         = Steady t2 post
             {| dec := snd (rx_run rds2 (snd (rx_run rds1 rx_init)));
                link_in := rest;
                link_out := [abc_off_buf; set_range_10000_buf];
                range_buf := set_range_10000_buf;
                stdout := [];
                stderr := [] |})
  /\ (forall t0 pre t post,
         silent link -> clock = t0 :: pre ++ t :: post ->
         Forall (before_deadline t0) pre -> 2 <= t - t0 ->
         exists w, main_init clock (world0 link) = Exit 1 w
                   /\ stderr w = [msg_abc_off] /\ link_out w = [abc_off_buf]).
Proof.
  assert (T1 : forall t0 c,
             match wait_response ABCOff t0 c (abc_off (world0 link)) with
             | Acked _ w | TimedOut _ w | Waiting w =>
                 link_out w = [abc_off_buf] /\ stdout w = [] /\ stderr w = []
                 /\ range_buf_inv (range_buf w)
             end).
  { intros t0 c.
    pose proof (wait_response_spec ABCOff t0 c (abc_off (world0 link))) as S.
    destruct (wait_response ABCOff t0 c (abc_off (world0 link)))
      as [c' w' | c' w' | w']; destruct S as ((A & B & C & D) & _);
      rewrite A, B, C, D; repeat split; apply range_buf_inv_init. }
  assert (T2 : forall w1 t1 c1,
             link_out w1 = [abc_off_buf] /\ stdout w1 = [] /\ stderr w1 = []
             /\ range_buf_inv (range_buf w1) ->
             match wait_response SetRange t1 c1 (snd (set_range 10000 w1)) with
             | Acked _ w | TimedOut _ w | Waiting w =>
                 link_out w = [abc_off_buf; set_range_10000_buf]
                 /\ stdout w = [] /\ stderr w = []
             end).
  { intros w1 t1 c1 (A1 & B1 & C1 & D1).
    destruct (set_range_10000 w1 D1) as (A2 & B2 & C2). cbv zeta in *.
    pose proof (wait_response_spec SetRange t1 c1 (snd (set_range 10000 w1)))
      as S.
    destruct (wait_response SetRange t1 c1 (snd (set_range 10000 w1)))
      as [c' w' | c' w' | w']; destruct S as ((A & B & C & D) & _);
      rewrite A, B, C, A2, B2, C2, A1, B1, C1; repeat split. }
  split; [| split; [| split; [| split]]].
  - unfold main_init. destruct clock as [| t0 c].
    { cbn. auto. }
    specialize (T1 t0 c).
    destruct (wait_response ABCOff t0 c (abc_off (world0 link)))
      as [c1 w1 | c1 w1 | w1].
    + destruct c1 as [| t1 c1].
      { destruct T1 as (A1 & B1 & C1 & D1).
        destruct (set_range_10000 w1 D1) as (A2 & B2 & C2). cbv zeta in *.
        rewrite A2, B2, C2, A1, B1, C1. auto. }
      specialize (T2 w1 t1 c1 T1).
      destruct (wait_response SetRange t1 c1 (snd (set_range 10000 w1)))
        as [c2 w2 | c2 w2 | w2]; destruct T2 as (A & B & C).
      * destruct c2; cbn; auto.
      * cbn [print_err stdout stderr link_out]. rewrite A, B, C.
        repeat split; try lia. right. auto.
      * auto.
    + destruct T1 as (A & B & C & _).
      cbn [print_err stdout stderr link_out]. rewrite A, B, C.
      repeat split; try lia. left. auto.
    + destruct T1 as (A & B & C & _). auto.
  - intros t0 c1 t post -> F D N. unfold main_init.
    rewrite (wait_response_times_out ABCOff t0 c1 post t
               (abc_off (world0 link)) F D N).
    reflexivity.
  - intros rds1 ps1 link2 t0 c1 t1 c2 t post -> -> R1 N1 L1 F1 F2 D N2.
    unfold main_init.
    rewrite (wait_response_acks ABCOff t0 rds1 ps1 c1 _ _ link2);
      try assumption; try reflexivity.
    match goal with
    | |- context [set_range 10000 ?w1] =>
        replace (snd (set_range 10000 w1))
          with {| dec := snd (rx_run rds1 rx_init);
                  link_in := link2;
                  link_out := [abc_off_buf; set_range_10000_buf];
                  range_buf := set_range_10000_buf;
                  stdout := [];
                  stderr := [] |} by reflexivity
    end.
    rewrite wait_response_times_out; try assumption; reflexivity.
  - intros rds1 ps1 rds2 ps2 rest t0 c1 t1 c2 t2 post -> ->
           R1 N1 R2 N2 L1 F1 L2 F2.
    unfold main_init.
    rewrite (wait_response_acks ABCOff t0 rds1 ps1 c1 _ _ (rds2 ++ rest));
      try assumption; try reflexivity.
    match goal with
    | |- context [set_range 10000 ?w1] =>
        replace (snd (set_range 10000 w1))
          with {| dec := snd (rx_run rds1 rx_init);
                  link_in := rds2 ++ rest;
                  link_out := [abc_off_buf; set_range_10000_buf];
                  range_buf := set_range_10000_buf;
                  stdout := [];
                  stderr := [] |} by reflexivity
    end.
    rewrite (wait_response_acks SetRange t1 rds2 ps2 c2 _ _ rest);
      try assumption; reflexivity.
  - intros t0 pre t post S -> F D.
    destruct (wait_response_silent ABCOff t0 pre post t
                (abc_off (world0 link)) ltac:(discriminate) S F D) as [w' W].
    exists (print_err msg_abc_off w').
    specialize (T1 t0 (pre ++ t :: post)). rewrite W in T1.
    destruct T1 as (A & B & C & _).
    unfold main_init. rewrite W. cbn [print_err stderr link_out].
    rewrite A, C. repeat split.
Qed.

Lemma handshake_outcomes_witness :
  (exists w, main_init [0; 0; 1; 2; 5] (world0 []) = Exit 1 w
             /\ stderr w = [msg_abc_off] /\ link_out w = [abc_off_buf])
  /\ (exists w, main_init (0 :: repeat 1 10 ++ 2 :: [5])
                  (world0 (map Some ack_set_range ++ [Some xff]))
                = Exit 1 w
                /\ stderr w = [msg_abc_off] /\ link_out w = [abc_off_buf])
  /\ (exists w, main_init (0 :: repeat 0 9 ++ 1 :: [1; 2] ++ 3 :: [4])
                  (world0 (map Some ack_abc_off ++ [Some xff; Some x99]))
                = Exit 1 w
                /\ stderr w = [msg_set_range]
                /\ link_out w = [abc_off_buf; set_range_10000_buf]).
Proof.
  split; [| split].
  - apply (proj2 (proj2 (proj2 (proj2 (handshake_outcomes [0; 0; 1; 2; 5] []))))
             0 [0; 1] 2 [5]).
    + constructor.
    + reflexivity.
    + repeat constructor; unfold before_deadline; lia.
    + lia.
  - pose proof (handshake_outcomes (0 :: repeat 1 10 ++ 2 :: [5])
                  (map Some ack_set_range ++ [Some xff])) as H.
    destruct H as (_ & H & _).
    specialize (H 0 (repeat 1 10) 2 [5] eq_refl).
    assert (F : Forall (before_deadline 0) (repeat 1 10))
      by (repeat constructor).
    assert (N : ~ In ABCOff
                  (fst (rx_run (reads (List.length (repeat 1 10))
                                  (map Some ack_set_range ++ [Some xff]))
                          rx_init))).
    { vm_compute. intros I.
      repeat (destruct I as [I | I]; [discriminate I |]). exact I. }
    specialize (H F ltac:(lia) N).
    eexists. split; [exact H | split; reflexivity].
  - pose proof (handshake_outcomes
                  (0 :: repeat 0 9 ++ 1 :: [1; 2] ++ 3 :: [4])
                  (map Some ack_abc_off ++ [Some xff; Some x99])) as H.
    destruct H as (_ & _ & H & _).
    specialize (H (map Some ack_abc_off) (repeat Packet.None 8)
                  [Some xff; Some x99] 0 (repeat 0 9) 1 [1; 2] 3 [4]
                  eq_refl eq_refl).
    assert (R : fst (rx_run (map Some ack_abc_off) rx_init)
                = repeat Packet.None 8 ++ [ABCOff])
      by (vm_compute; reflexivity).
    assert (N1 : ~ In ABCOff (repeat Packet.None 8)).
    { cbn. intros I.
      repeat (destruct I as [I | I]; [discriminate I |]). exact I. }
    assert (F1 : Forall (before_deadline 0) (repeat 0 9))
      by (repeat constructor).
    assert (F2 : Forall (before_deadline 1) [1; 2])
      by (repeat constructor).
    assert (N2 : ~ In SetRange
                   (fst (rx_run (reads (List.length [1; 2])
                                   [Some xff; Some x99])
                           (snd (rx_run (map Some ack_abc_off) rx_init))))).
    { vm_compute. intros I.
      repeat (destruct I as [I | I]; [discriminate I |]). exact I. }
    specialize (H R N1 eq_refl F1 F2 ltac:(lia) N2).
    eexists. split; [exact H | split; reflexivity].
Defined.

(** A frame still in progress when the deadline comes does not extend the
    wait: after a lone 0xFF the line falls silent and the run ends with the
    'ABC off' message. *)
Example frame_in_progress_does_not_extend_the_wait :
  main [0; 0; 1; 1; 2] (world0 [Some xff])
  = (Some 1,
     {| dec := {| rxstate := 2; checksum := 0xff; byte3 := 0;
                  packet := Packet.None; co2_level := -1 |};
        link_in := [];
        link_out := [abc_off_buf];
        range_buf := set_range_buf0;
        stdout := [];
        stderr := [msg_abc_off] |}).
Proof. reflexivity. Qed.

(** The acknowledgement of 'ABC off' arrives, that of 'Set range' does
    not. *)
Example set_range_times_out :
  main (repeat 0 12 ++ [3]) (world0 (map Some ack_abc_off))
  = (Some 1,
     {| dec := {| rxstate := 1; checksum := 0xff; byte3 := 1;
                  packet := ABCOff; co2_level := -1 |};
        link_in := [];
        link_out := [abc_off_buf; set_range_10000_buf];
        range_buf := set_range_10000_buf;
        stdout := [];
        stderr := [msg_set_range] |}).
Proof. reflexivity. Qed.

(** * Further properties of the code *)

(** ** Read timeouts between bytes *)

(** X1.  Reads that time out, wherever they fall (also in the middle of a
    frame), change nothing: the decoder ends in the state it reaches on the
    delivered bytes alone, and returns the same kinds in the same order. *)
Theorem read_timeouts_are_transparent (rds : list (option byte)) (d : decoder) :
  snd (rx_run rds d) = snd (feed (bytes_of rds) d)
  /\ classified (fst (rx_run rds d))
     = classified (fst (feed (bytes_of rds) d)).
Proof.
  revert d. induction rds as [| [b |] rds IH]; intros d.
  - split; reflexivity.
  - change (bytes_of (Some b :: rds)) with (b :: bytes_of rds).
    rewrite rx_run_cons, feed_cons. cbn [fst snd].
    destruct (IH (snd (rx_packet (Some b) d))) as [S C].
    split; [exact S |].
    unfold classified in *. cbn [filter]. rewrite C. reflexivity.
  - change (bytes_of (None :: rds)) with (bytes_of rds).
    rewrite rx_run_cons, rx_packet_timeout. cbn [fst snd].
    destruct (IH d) as [S C]. split; [exact S |].
    unfold classified in *. cbn [filter PacketType_eqb negb]. exact C.
Qed.

(** ** A frame once begun is read to its end *)

Lemma rx_packet_advance (b : byte) (d : decoder) :
  2 <= rxstate d <= 8 ->
  fst (rx_packet (Some b) d) = Packet.None
  /\ rxstate (snd (rx_packet (Some b) d)) = rxstate d + 1.
Proof.
  intros H. rx_cases d; cbn [rxstate] in H; try lia; split; reflexivity.
Qed.

Lemma feed_advance (bs : list byte) (d : decoder) :
  2 <= rxstate d -> rxstate d + Z.of_nat (List.length bs) <= 9 ->
  fst (feed bs d) = repeat Packet.None (List.length bs)
  /\ rxstate (snd (feed bs d)) = rxstate d + Z.of_nat (List.length bs).
Proof.
  revert d. induction bs as [| b bs IH]; intros d L U.
  - cbn [List.length Z.of_nat]. split; [reflexivity |].
    rewrite feed_nil. cbn [snd]. lia.
  - cbn [List.length] in *. rewrite Nat2Z.inj_succ in *.
    destruct (rx_packet_advance b d ltac:(lia)) as [R S].
    rewrite feed_cons. cbn [fst snd repeat]. rewrite R.
    destruct (IH (snd (rx_packet (Some b) d)) ltac:(lia) ltac:(lia))
      as [R' S'].
    rewrite R', S', S. split; [reflexivity | lia].
Qed.

(** X2.  Inside a frame there is no resynchronisation.  From state k in
    2..9 the decoder consumes the next 10 - k bytes whatever they are, 0xFF
    included: after j < 10 - k of them it is in state k + j and has returned
    [None] each time, and after all of them it is back in state 1. *)
Theorem frame_in_progress_is_consumed (d : decoder) (bs : list byte) :
  2 <= rxstate d <= 9 ->
  Z.of_nat (List.length bs) = 10 - rxstate d ->
  (forall j : nat,
      (j < List.length bs)%nat ->
      fst (feed (firstn j bs) d) = repeat Packet.None j
      /\ rxstate (snd (feed (firstn j bs) d)) = rxstate d + Z.of_nat j)
  /\ rxstate (snd (feed bs d)) = 1.
Proof.
  intros H L. split.
  - intros j Hj.
    assert (Lj : List.length (firstn j bs) = j).
    { rewrite length_firstn. lia. }
    destruct (feed_advance (firstn j bs) d ltac:(lia) ltac:(lia)) as [R S].
    rewrite Lj in R, S. auto.
  - destruct bs as [| b bs] using rev_ind;
      [cbn [List.length Z.of_nat] in L; lia |].
    rewrite length_app in L. cbn [List.length] in L.
    destruct (feed_advance bs d ltac:(lia) ltac:(lia)) as [_ S].
    rewrite feed_app. cbn [snd]. rewrite feed_cons, feed_nil. cbn [snd].
    apply rx_packet_ninth. lia.
Qed.

Lemma frame_in_progress_is_consumed_witness :
  rxstate (snd (feed [xff; xff; xff; xff; xff; xff]
                  (snd (feed [xff; x86; x01] rx_init)))) = 1.
Proof.
  apply (frame_in_progress_is_consumed
           (snd (feed [xff; x86; x01] rx_init))
           [xff; xff; xff; xff; xff; xff]).
  - cbn. lia.
  - reflexivity.
Defined.

(** ** Streams of frames *)

Lemma classified_cons_None (ps : list PacketType) :
  classified (Packet.None :: ps) = classified ps.
Proof. reflexivity. Qed.

Lemma classified_kind (c : Z) (ps : list PacketType) :
  classified (classify c :: ps) = classify c :: classified ps.
Proof.
  unfold classified. cbn [filter].
  pose proof (classify_not_None c) as N.
  destruct (classify c); try reflexivity. contradiction N. reflexivity.
Qed.

(** X3.  A stream of nine-byte frames that start with 0xFF, each preceded
    by any bytes other than 0xFF, is decoded frame by frame from state 1:
    the kinds returned are, in order, those of the frames whose bytes add up
    to 0xFF; a frame that does not add up is dropped without a return and
    costs exactly its own nine bytes; and the decoder ends in state 1. *)
Theorem stream_is_decoded_frame_by_frame
    (gfs : list (list byte * frame)) (d : decoder) :
  rxstate d = 1 ->
  Forall (fun gf => Forall (fun b => b <> xff) (fst gf)
                    /\ List.length (snd gf) = 9%nat
                    /\ nth 0 (snd gf) x00 = xff) gfs ->
  classified (fst (feed (stream gfs) d))
  = map frame_kind (filter checksum_ok (map snd gfs))
  /\ rxstate (snd (feed (stream gfs) d)) = 1.
Proof.
  intros H F. revert d H.
  induction F as [| [g f] gfs (G & L & H0) _ IH]; intros d H.
  - split; [reflexivity | exact H].
  - cbn [fst snd] in G, L, H0.
    change (stream ((g, f) :: gfs)) with ((g ++ f) ++ stream gfs).
    destruct (feed_garbage g d H G) as (R & S1 & _).
    destruct (frame_shape f L H0)
      as (b1 & b2 & b3 & b4 & b5 & b6 & b7 & b8 & ->).
    pose proof (feed_frame (snd (feed g d)) b1 b2 b3 b4 b5 b6 b7 b8 S1) as E.
    cbv zeta in E.
    rewrite feed_app. rewrite (feed_app g). cbn [fst snd].
    rewrite R, E. cbn [fst snd].
    match goal with
    | |- context [feed (stream gfs) ?d1] =>
        destruct (IH d1 eq_refl) as [C S]
    end.
    split; [| exact S].
    rewrite !classified_app, classified_repeat_None, C.
    cbn [app map filter snd]. unfold frame_kind at 2. cbn [nth].
    destruct (checksum_ok _).
    + cbn [repeat app]. rewrite !classified_cons_None, classified_kind.
      reflexivity.
    + reflexivity.
Qed.

Lemma stream_is_decoded_frame_by_frame_witness :
  classified
    (fst (feed (stream [([x00; x17], frame_800); ([], frame_corrupt);
                        ([x42], frame_420)]) rx_init))
  = [CO2Level; CO2Level]
  /\ rxstate
       (snd (feed (stream [([x00; x17], frame_800); ([], frame_corrupt);
                           ([x42], frame_420)]) rx_init)) = 1.
Proof.
  apply (stream_is_decoded_frame_by_frame
           [([x00; x17], frame_800); ([], frame_corrupt); ([x42], frame_420)]
           rx_init eq_refl).
  repeat constructor; discriminate.
Defined.

(** ** Every return closes a valid frame *)

(** Closes the running-sum half of a [follows] goal after a byte has been
    appended to the frame in progress. *)
Ltac sum_done Hs :=
  intros _; cbn [checksum snd];
  rewrite (Hs ltac:(discriminate));
  unfold frame_sum; cbn [fold_right app];
  rewrite Z.add_mod_idemp_l by lia; f_equal; ring.

Lemma follows_init : follows [] rx_init.
Proof. split; [reflexivity | intros N; contradiction N; reflexivity]. Qed.

Lemma follows_step (part : list byte) (d : decoder) (rd : option byte) :
  follows part d ->
  exists pre part',
    part ++ bytes_of [rd] = pre ++ part'
    /\ follows part' (snd (rx_packet rd d)).
Proof.
  intros [T Hs]. destruct rd as [b |].
  2:{ exists [], part. cbn [bytes_of flat_map]. rewrite app_nil_r.
      split; [reflexivity | split; assumption]. }
  cbn [bytes_of flat_map app]. destruct d as [st ck y pk lv].
  cbn [checksum] in Hs.
  destruct part as [| b0 [| b1 [| b2 [| b3 rest]]]]; cbn [tracks rxstate] in T.
  - subst st. rewrite rx_packet_1. cbn [snd].
    destruct (Z.eqb_spec (uchar b) 0xff) as [E | E].
    + apply uchar_xff in E. subst b. exists [], [xff].
      split; [reflexivity |]. split; [tracks_done |]. intros _. reflexivity.
    + exists [b], []. split; [reflexivity |].
      split; [tracks_done | intros N; contradiction N; reflexivity].
  - destruct T as (-> & ->). rewrite rx_packet_2.
    exists [], [xff; b]. split; [reflexivity |].
    split; [tracks_done | sum_done Hs].
  - destruct T as (-> & -> & P). rewrite rx_packet_3. cbn [packet] in P.
    exists [], [xff; b1; b]. split; [reflexivity |].
    split; [tracks_done | sum_done Hs].
  - destruct T as (-> & -> & P & B). rewrite rx_packet_4.
    cbn [packet byte3] in P, B. subst y.
    exists [], [xff; b1; b2; b]. split; [reflexivity |].
    split; [| sum_done Hs].
    cbn [tracks rxstate packet byte3 co2_level List.length app snd Z.of_nat].
    repeat split; auto; try lia.
    intros K. rewrite K. reflexivity.
  - destruct T as (-> & S & L & P & C).
    cbn [packet co2_level] in P, C.
    destruct rest as [| r0 [| r1 [| r2 [| r3 [| r4 rest]]]]];
      cbn [List.length] in S, L; try lia; cbn in S; subst st.
    + rewrite rx_packet_5. exists [], [xff; b1; b2; b3; b].
      split; [reflexivity |]. split; [tracks_done | sum_done Hs].
    + rewrite rx_packet_6. exists [], [xff; b1; b2; b3; r0; b].
      split; [reflexivity |]. split; [tracks_done | sum_done Hs].
    + rewrite rx_packet_7. exists [], [xff; b1; b2; b3; r0; r1; b].
      split; [reflexivity |]. split; [tracks_done | sum_done Hs].
    + rewrite rx_packet_8. exists [], [xff; b1; b2; b3; r0; r1; r2; b].
      split; [reflexivity |]. split; [tracks_done | sum_done Hs].
    + rewrite rx_packet_9. exists [xff; b1; b2; b3; r0; r1; r2; r3; b], [].
      split; [reflexivity |].
      split; [tracks_done | intros N; contradiction N; reflexivity].
Qed.

Lemma rx_run_follows (rds : list (option byte)) :
  exists pre part,
    bytes_of rds = pre ++ part /\ follows part (snd (rx_run rds rx_init)).
Proof.
  induction rds as [| rd rds IH] using rev_ind.
  - exists [], []. split; [reflexivity | exact follows_init].
  - destruct IH as (pre & part & B & T).
    destruct (follows_step part _ rd T) as (pre' & part' & E & T').
    exists (pre ++ pre'), part'. rewrite rx_run_snoc. split; [| exact T'].
    rewrite bytes_of_app, B, <- !app_assoc, E. reflexivity.
Qed.

(** X4.  Whatever has been read since start-up, a call that returns a kind
    has just consumed the last of nine consecutive bytes that start with
    0xFF and add up to 0xFF modulo 256, and the kind returned is the one
    announced by the second of those bytes. *)
Theorem returned_kind_closes_valid_frame
    (rds : list (option byte)) (rd : option byte) :
  let d := snd (rx_run rds rx_init) in
  fst (rx_packet rd d) <> Packet.None ->
  exists pre f,
    bytes_of (rds ++ [rd]) = pre ++ f
    /\ List.length f = 9%nat /\ nth 0 f x00 = xff
    /\ checksum_ok f = true
    /\ fst (rx_packet rd d) = frame_kind f.
Proof.
  intros d R.
  destruct (rx_packet_returns rd d R) as (b & -> & S9 & C & P).
  destruct (rx_run_follows rds) as (pre & part & B & T & Hs). fold d in T, Hs.
  rewrite bytes_of_app, B, P. cbn [bytes_of flat_map app].
  destruct part as [| b0 [| b1 [| b2 [| b3 rest]]]]; cbn [tracks] in T;
    try lia; try (destruct T as (_ & T & _); lia).
  destruct T as (-> & S & L & K & _).
  destruct rest as [| r0 [| r1 [| r2 [| r3 [| r4 rest]]]]];
    cbn [List.length] in S, L; try lia.
  exists pre, [xff; b1; b2; b3; r0; r1; r2; r3; b].
  rewrite <- app_assoc. repeat split.
  - unfold checksum_ok. apply Z.eqb_eq. rewrite <- C.
    rewrite (Hs ltac:(discriminate)). unfold frame_sum. cbn [fold_right].
    rewrite Z.add_mod_idemp_l by lia. f_equal. ring.
  - exact K.
Qed.

Lemma returned_kind_closes_valid_frame_witness :
  exists pre f,
    bytes_of (map Some (frame_corrupt ++ firstn 8 frame_420) ++ [Some xd5])
    = pre ++ f
    /\ List.length f = 9%nat /\ nth 0 f x00 = xff
    /\ checksum_ok f = true
    /\ fst (rx_packet (Some xd5)
              (snd (rx_run (map Some (frame_corrupt ++ firstn 8 frame_420))
                      rx_init)))
       = frame_kind f.
Proof.
  apply (returned_kind_closes_valid_frame
           (map Some (frame_corrupt ++ firstn 8 frame_420)) (Some xd5)).
  vm_compute. discriminate.
Defined.

(** ** Ranges of the decoder's fields *)

Lemma rx_packet_fields (rd : option byte) (d : decoder) :
  fields_in_range d -> fields_in_range (snd (rx_packet rd d)).
Proof.
  unfold fields_in_range. intros (C & B & L).
  destruct rd as [b |]; [| auto].
  pose proof (uchar_range b) as U.
  revert C B L. rx_cases d; intros C B L;
    try (repeat split; try apply Z.mod_pos_bound; auto; lia).
  - destruct (uchar b =? 0xff); cbn [checksum byte3 co2_level];
      repeat split; try apply Z.mod_pos_bound; auto; lia.
  - destruct (PacketType_eqb pk CO2Level);
      repeat split; try apply Z.mod_pos_bound; auto; lia.
Qed.

Lemma rx_run_fields (rds : list (option byte)) (d : decoder) :
  fields_in_range d -> fields_in_range (snd (rx_run rds d)).
Proof.
  revert d. induction rds as [| rd rds IH]; intros d H; [exact H |].
  rewrite rx_run_cons. cbn [snd]. apply IH, rx_packet_fields, H.
Qed.

(** X5.  Whatever is read after start-up, the running sum and the latched
    high byte stay within an [unsigned char], and the measurement is either
    the initial -1 or a value in 0..65535; once it has left -1 no call
    brings the sentinel back. *)
Theorem decoder_fields_stay_in_range (rds : list (option byte)) :
  let d := snd (rx_run rds rx_init) in
  0 <= checksum d < 256
  /\ 0 <= byte3 d < 256
  /\ (co2_level d = -1 \/ 0 <= co2_level d <= 65535)
  /\ (forall rd : option byte,
         0 <= co2_level d -> 0 <= co2_level (snd (rx_packet rd d)) <= 65535).
Proof.
  intros d.
  assert (I : fields_in_range rx_init).
  { unfold fields_in_range. cbn. lia. }
  pose proof (rx_run_fields rds rx_init I) as H. fold d in H.
  destruct H as (C & B & L).
  split; [exact C | split; [exact B | split; [exact L |]]].
  intros rd N.
  destruct (Z.eq_dec (co2_level (snd (rx_packet rd d))) (co2_level d))
    as [E | NE].
  - rewrite E. lia.
  - destruct (rx_packet_co2_level rd d NE) as (b & _ & _ & _ & V).
    rewrite V. pose proof (uchar_range b). lia.
Qed.

Lemma decoder_fields_stay_in_range_witness :
  0 <= co2_level
         (snd (rx_packet (Some x00) (snd (rx_run (map Some frame_420) rx_init))))
  <= 65535.
Proof.
  apply (proj2 (proj2 (proj2
           (decoder_fields_stay_in_range (map Some frame_420))))).
  vm_compute. discriminate.
Defined.

(** ** The program's own commands on the receive side *)

(** The frames the three senders can write. *)
Lemma sender_frame_cases (w : world) (r : Z) (fr : frame) :
  range_buf_inv (range_buf w) -> allowed_range r ->
  link_out (request_co2_level w) = link_out w ++ [fr]
  \/ link_out (abc_off w) = link_out w ++ [fr]
  \/ link_out (snd (set_range r w)) = link_out w ++ [fr] ->
  exists c3 c4 c8, fr = [xff; x01; c3; c4; x00; x00; x00; x00; c8]
                   \/ exists hi lo, fr = [xff; x01; c3; hi; lo; x00; x00; x00; c8].
Proof.
  intros B H [W | [W | W]].
  - apply app_inv_head in W. injection W as <-.
    exists x86, x00, x79. left. reflexivity.
  - apply app_inv_head in W. injection W as <-.
    exists x79, x00, x86. left. reflexivity.
  - pose proof (set_range_accepts r w B H) as E. cbv zeta in E.
    rewrite E in W. cbn [snd write link_out firstn] in W.
    apply app_inv_head in W. injection W as <-.
    eexists x99, x00, _. right. eexists _, _. reflexivity.
Qed.

(** X6.  A frame written by [request_co2_level], [abc_off] or an accepted
    [set_range], if it comes back on the receive side (an echo), is returned
    by a decoder in state 1 as [Other]: its second byte is the address 0x01,
    not a response code.  So an echo is never taken for an acknowledgement
    or a reading, and it leaves the measurement alone. *)
Theorem own_commands_decode_as_other
    (w : world) (r : Z) (fr : frame) (d : decoder) :
  range_buf_inv (range_buf w) -> allowed_range r ->
  link_out (request_co2_level w) = link_out w ++ [fr]
  \/ link_out (abc_off w) = link_out w ++ [fr]
  \/ link_out (snd (set_range r w)) = link_out w ++ [fr] ->
  rxstate d = 1 ->
  fst (feed fr d) = repeat Packet.None 8 ++ [Other]
  /\ co2_level (snd (feed fr d)) = co2_level d.
Proof.
  intros B H W S.
  assert (V : checksum_ok fr = true).
  { destruct W as [W | [W | W]].
    - apply app_inv_head in W. injection W as <-. reflexivity.
    - apply app_inv_head in W. injection W as <-. reflexivity.
    - pose proof (set_range_accepts r w B H) as E. cbv zeta in E.
      rewrite E in W. cbn [snd write link_out firstn] in W.
      apply app_inv_head in W. injection W as <-.
      destruct H as [-> | [-> | ->]]; reflexivity. }
  destruct (sender_frame_cases w r fr B H W)
    as (c3 & c4 & c8 & [-> | (hi & lo & ->)]).
  - pose proof (feed_frame d x01 c3 c4 x00 x00 x00 x00 c8 S) as F.
    cbv zeta in F. rewrite F, V. split; reflexivity.
  - pose proof (feed_frame d x01 c3 hi lo x00 x00 x00 c8 S) as F.
    cbv zeta in F. rewrite F, V. split; reflexivity.
Qed.

Lemma own_commands_decode_as_other_witness :
  fst (feed abc_off_buf rx_init) = repeat Packet.None 8 ++ [Other]
  /\ co2_level (snd (feed abc_off_buf rx_init)) = co2_level rx_init.
Proof.
  assert (A : allowed_range 10000) by (unfold allowed_range; lia).
  apply (own_commands_decode_as_other (world0 []) 10000 abc_off_buf rx_init
           range_buf_inv_init A).
  - right; left. reflexivity.
  - reflexivity.
Defined.

(** ** The static buffer of [set_range] *)

Lemma allowed_range_dec (r : Z) : {allowed_range r} + {~ allowed_range r}.
Proof.
  unfold allowed_range.
  destruct (Z.eq_dec r 2000); [left; auto |].
  destruct (Z.eq_dec r 5000); [left; auto |].
  destruct (Z.eq_dec r 10000); [left; auto |].
  right. intros [E | [E | E]]; contradiction.
Qed.

(** What one call writes does not depend on the calls made before it. *)
Lemma set_range_link_out (r : Z) (w : world) :
  range_buf_inv (range_buf w) ->
  link_out (snd (set_range r w))
  = link_out w ++ link_out (snd (set_range r (world0 []))).
Proof.
  intros B. destruct (allowed_range_dec r) as [A | N].
  - pose proof (set_range_accepts r w B A) as E.
    pose proof (set_range_accepts r (world0 []) range_buf_inv_init A) as E0.
    cbv zeta in E, E0. rewrite E, E0. reflexivity.
  - rewrite !set_range_rejects by exact N. cbn [snd world0 link_out].
    rewrite app_nil_r. reflexivity.
Qed.

(** X7.  The buffer of [set_range] is static, yet nothing of one call leaks
    into the next: after any sequence of calls, with valid and invalid
    ranges mixed, the frames written are, call by call, those a first call
    with the same argument would write (none for an invalid range). *)
Theorem set_range_calls_are_independent (rs : list Z) (w : world) :
  range_buf_inv (range_buf w) ->
  link_out (set_range_calls rs w)
  = link_out w
    ++ flat_map (fun r => link_out (snd (set_range r (world0 [])))) rs
  /\ range_buf_inv (range_buf (set_range_calls rs w)).
Proof.
  revert w. unfold set_range_calls.
  induction rs as [| r rs IH]; intros w B.
  - cbn [fold_left flat_map]. rewrite app_nil_r. split; [reflexivity | exact B].
  - cbn [fold_left flat_map].
    destruct (IH (snd (set_range r w)) (set_range_keeps_inv r w B)) as [E I].
    split; [| exact I].
    rewrite E, set_range_link_out by exact B. rewrite app_assoc. reflexivity.
Qed.

Lemma set_range_calls_are_independent_witness :
  link_out (set_range_calls [2000; 3000; 10000; 5000; 10000] (world0 []))
  = link_out (world0 [])
    ++ flat_map (fun r => link_out (snd (set_range r (world0 []))))
         [2000; 3000; 10000; 5000; 10000]
  /\ range_buf_inv
       (range_buf
          (set_range_calls [2000; 3000; 10000; 5000; 10000] (world0 []))).
Proof.
  apply (set_range_calls_are_independent [2000; 3000; 10000; 5000; 10000]
           (world0 []) range_buf_inv_init).
Defined.

(** ** What the polling loop writes *)

(** X8.  Once polling has started the program writes nothing to the serial
    line but [request_co2_level] frames, at most one per turn of the loop,
    and [ref_time] has advanced by 10 per frame; it writes nothing to
    standard error and does not touch the buffer of [set_range]. *)
Theorem polling_only_sends_requests
    (clock : list Z) (ref_time : Z) (w : world) :
  let st := steady_run clock (ref_time, w) in
  exists n : nat,
    link_out (snd st) = link_out w ++ repeat request_co2_level_buf n
    /\ (n <= List.length clock)%nat
    /\ fst st = ref_time + 10 * Z.of_nat n
    /\ stderr (snd st) = stderr w
    /\ range_buf (snd st) = range_buf w.
Proof.
  revert ref_time w. induction clock as [| t clock IH]; intros ref_time w.
  - exists 0%nat. unfold steady_run.
    cbn [fold_left fst snd repeat List.length Z.of_nat].
    rewrite app_nil_r. repeat split; lia.
  - cbv zeta. rewrite steady_run_cons.
    assert (S : exists k : nat,
               (k <= 1)%nat
               /\ fst (steady_iter t (ref_time, w)) = ref_time + 10 * Z.of_nat k
               /\ link_out (snd (steady_iter t (ref_time, w)))
                  = link_out w ++ repeat request_co2_level_buf k
               /\ stderr (snd (steady_iter t (ref_time, w))) = stderr w
               /\ range_buf (snd (steady_iter t (ref_time, w))) = range_buf w).
    { unfold steady_iter.
      destruct (rx_packet_fd_frame w) as (O & _ & E & R & _). cbv zeta in *.
      destruct (rx_packet_fd w) as [p w1]. cbn [snd] in O, E, R.
      destruct (Z.gtb_spec (t - ref_time) 10) as [G | G].
      - exists 1%nat.
        destruct (PacketType_eqb p CO2Level);
          cbn [fst snd request_co2_level write print_int link_out stderr
                 range_buf firstn repeat request_co2_level_buf];
          rewrite ?O, ?E, ?R; repeat split; lia.
      - exists 0%nat.
        destruct (PacketType_eqb p CO2Level);
          cbn [fst snd print_int link_out stderr range_buf repeat];
          rewrite ?O, ?E, ?R, ?app_nil_r; repeat split; lia. }
    destruct S as (k & K & F1 & L1 & E1 & R1).
    destruct (steady_iter t (ref_time, w)) as [ref1 w1]. cbn [fst snd] in *.
    destruct (IH ref1 w1) as (n & L & N & F & E & R). cbv zeta in *.
    exists (k + n)%nat.
    rewrite L, F, E, R, L1, F1, E1, R1, repeat_app, <- app_assoc.
    cbn [List.length]. repeat split; lia.
Qed.

(** ** Requests are never early *)

Lemma steady_run_not_early (clock : list Z) (prev ref_time : Z) (w : world) :
  nondecreasing prev clock ->
  let st := steady_run clock (ref_time, w) in
  prev <= last clock prev
  /\ (1 <= requests (snd st) - requests w -> fst st < last clock prev).
Proof.
  revert prev ref_time w.
  induction clock as [| t clock IH]; intros prev ref_time w M.
  - unfold steady_run. cbn [fold_left fst snd last]. lia.
  - cbv zeta. rewrite steady_run_cons, last_cons_default.
    destruct M as [Mt M].
    destruct (steady_iter_cadence t ref_time w) as [Hgt Hle]. cbv zeta in *.
    destruct (steady_iter t (ref_time, w)) as [ref1 w1]. cbn [fst snd] in *.
    destruct (IH t ref1 w1 M) as [I1 I2].
    pose proof (steady_run_ref_time clock ref1 w1) as [E [N _]].
    cbv zeta in E, N.
    destruct (Z_gt_le_dec t (ref_time + 10)) as [G | G].
    + destruct (Hgt G) as (-> & _ & R). lia.
    + destruct (Hle G) as (-> & _ & R). rewrite R in *. lia.
Qed.

(** X9.  With a clock that never goes back, and whatever the time a turn of
    the polling loop takes, the n-th request is written only after the clock
    has passed the entry of the loop by more than 10*n seconds: stalls delay
    requests but never bring one forward, and a backlog is worked off one
    request per turn. *)
Theorem requests_are_never_early (clock : list Z) (ref_time : Z) (w : world) :
  nondecreasing ref_time clock ->
  let n := requests (snd (steady_run clock (ref_time, w))) - requests w in
  0 <= n <= Z.of_nat (List.length clock)
  /\ (1 <= n -> 10 * n < last clock ref_time - ref_time).
Proof.
  intros M n.
  destruct (steady_run_not_early clock ref_time ref_time w M) as [_ I].
  destruct (steady_run_ref_time clock ref_time w) as [E B].
  cbv zeta in *. fold n in I, E, B. split; [exact B |].
  intros H. specialize (I H). lia.
Qed.

Lemma requests_are_never_early_witness :
  10 * (requests (snd (steady_run [0; 35; 35; 35; 36] (0, world0 [])))
        - requests (world0 []))
  < last [0; 35; 35; 35; 36] 0 - 0.
Proof.
  apply (proj2 (requests_are_never_early [0; 35; 35; 35; 36] 0 (world0 [])
                  ltac:(cbn; lia))).
  vm_compute. discriminate.
Defined.

Example backlog_is_worked_off :
  requests (snd (steady_run [0; 35; 35; 35; 36] (0, world0 []))) = 3.
Proof. reflexivity. Qed.

(** ** The polling loop and the decoder *)

(** X10.  The polling loop calls the decoder exactly once per turn, on the
    next outcome of [read], whatever the clock says and whether or not a
    request is due: after any number of turns the decoder is where those
    reads alone take it, and standard output has grown by exactly the
    measurements in force at the [CO2Level] returns, in order. *)
Theorem polling_decodes_every_turn
    (clock : list Z) (ref_time : Z) (w : world) :
  let st := steady_run clock (ref_time, w) in
  let rds := reads (List.length clock) (link_in w) in
  dec (snd st) = snd (rx_run rds (dec w))
  /\ stdout (snd st) = stdout w ++ readings rds (dec w).
Proof.
  revert ref_time w. induction clock as [| t clock IH]; intros ref_time w.
  - unfold steady_run. cbn. rewrite app_nil_r. auto.
  - cbv zeta. rewrite steady_run_cons. cbn [List.length].
    destruct (rx_packet_fd_reads w (List.length clock)) as [E R].
    rewrite R. rewrite rx_run_cons. cbn [snd readings].
    set (rd := hd None (reads (S (List.length clock)) (link_in w))) in *.
    unfold steady_iter. rewrite E.
    destruct (rx_packet rd (dec w)) as [p d1]. cbn [fst snd].
    set (w1 := set_dec d1 (set_link_in (tl (link_in w)) w)).
    assert (D : forall ref' w',
               dec w' = d1 -> link_in w' = tl (link_in w) ->
               dec (snd (steady_run clock (ref', w')))
               = snd (rx_run (reads (List.length clock) (tl (link_in w))) d1)
               /\ stdout (snd (steady_run clock (ref', w')))
                  = stdout w'
                    ++ readings (reads (List.length clock) (tl (link_in w))) d1).
    { intros ref' w' Hd Hl. destruct (IH ref' w') as [A B]. cbv zeta in *.
      rewrite Hd, Hl in *. auto. }
    destruct (PacketType_eqb p CO2Level);
      destruct (t - ref_time >? 10);
      match goal with
      | |- context [steady_run clock (?r, ?w')] =>
          destruct (D r w' eq_refl eq_refl) as [A B]; rewrite A, B
      end;
      cbn [stdout request_co2_level write print_int w1 set_dec set_link_in dec];
      rewrite <- ?app_assoc; auto.
Qed.

(** ** A handshake that succeeds *)

(** X11.  If, while the clock stays before each deadline, the reads bring an
    [ABCOff] return and then a [SetRange] return, the handshake succeeds:
    [main] enters the polling loop having written exactly the [abc_off]
    frame and the [set_range(10000)] frame, nothing on standard output or
    standard error.  Returns of other kinds that come before the awaited one
    (a reading, say) are dropped, and the decoder carries on from where
    those reads left it. *)
Theorem handshake_succeeds
    (rds1 rds2 rest : list (option byte)) (ps1 ps2 : list PacketType)
    (t0 t1 t2 : Z) (c1 c2 post : list Z) :
  fst (rx_run rds1 rx_init) = ps1 ++ [ABCOff] -> ~ In ABCOff ps1 ->
  fst (rx_run rds2 (snd (rx_run rds1 rx_init))) = ps2 ++ [SetRange] ->
  ~ In SetRange ps2 ->
  List.length c1 = List.length rds1 -> Forall (before_deadline t0) c1 ->
  List.length c2 = List.length rds2 -> Forall (before_deadline t1) c2 ->
  main_init (t0 :: c1 ++ t1 :: c2 ++ t2 :: post)
            (world0 (rds1 ++ rds2 ++ rest))
  = Steady t2 post
      {| dec := snd (rx_run rds2 (snd (rx_run rds1 rx_init)));
         link_in := rest;
         link_out := [abc_off_buf; set_range_10000_buf];
         range_buf := set_range_10000_buf;
         stdout := [];
         stderr := [] |}.
Proof.
  intros R1 N1 R2 N2 L1 F1 L2 F2. unfold main_init.
  rewrite (wait_response_acks ABCOff t0 rds1 ps1 c1 _ _ (rds2 ++ rest));
    try assumption; try reflexivity.
  cbn [app].
  match goal with
  | |- context [set_range 10000 ?w1] =>
      replace (snd (set_range 10000 w1))
        with {| dec := snd (rx_run rds1 rx_init);
                link_in := rds2 ++ rest;
                link_out := [abc_off_buf; set_range_10000_buf];
                range_buf := set_range_10000_buf;
                stdout := [];
                stderr := [] |} by reflexivity
  end.
  rewrite (wait_response_acks SetRange t1 rds2 ps2 c2 _ _ rest);
    try assumption; reflexivity.
Qed.

Lemma handshake_succeeds_witness :
  main_init (0 :: repeat 0 18 ++ 1 :: repeat 1 9 ++ 2 :: [3; 4])
            (world0 (map Some (frame_420 ++ ack_abc_off)
                     ++ map Some ack_set_range ++ [Some x17]))
  = Steady 2 [3; 4]
      {| dec := snd (rx_run (map Some ack_set_range)
                       (snd (rx_run (map Some (frame_420 ++ ack_abc_off))
                               rx_init)));
         link_in := [Some x17];
         link_out := [abc_off_buf; set_range_10000_buf];
         range_buf := set_range_10000_buf;
         stdout := [];
         stderr := [] |}.
Proof.
  apply (handshake_succeeds
           (map Some (frame_420 ++ ack_abc_off)) (map Some ack_set_range)
           [Some x17]
           (repeat Packet.None 8 ++ [CO2Level] ++ repeat Packet.None 8)
           (repeat Packet.None 8)
           0 1 2 (repeat 0 18) (repeat 1 9) [3; 4]).
  - reflexivity.
  - cbn. intros H. repeat (destruct H as [H | H]; [discriminate H |]).
    exact H.
  - reflexivity.
  - cbn. intros H. repeat (destruct H as [H | H]; [discriminate H |]).
    exact H.
  - reflexivity.
  - repeat constructor.
  - reflexivity.
  - repeat constructor.
Defined.

(** ** Where polling starts *)

Lemma wait_response_acked_state (expect : PacketType) (ref_time : Z)
    (clock clock' : list Z) (w w' : world) :
  expect <> Packet.None ->
  wait_response expect ref_time clock w = Acked clock' w' ->
  rxstate (dec w') = 1 /\ packet (dec w') = expect.
Proof.
  intros NE W.
  pose proof (wait_response_spec expect ref_time clock w) as S.
  rewrite W in S. destruct S as (_ & pre & t & w0 & _ & _ & R).
  destruct (rx_packet_fd_frame w0) as (_ & _ & _ & _ & rd & E).
  rewrite R in E. cbn [fst snd] in E.
  assert (N : fst (rx_packet rd (dec w0)) <> Packet.None)
    by (rewrite E; exact NE).
  destruct (rx_packet_returns rd (dec w0) N) as (b & -> & S9 & _ & P).
  rewrite E in P. cbn [fst] in P.
  replace (dec w') with (snd (rx_packet (Some b) (dec w0)))
    by (rewrite E; reflexivity).
  split; [apply rx_packet_ninth, S9 |].
  destruct (dec w0) as [st ck y pk lv]. cbn [rxstate packet] in S9, P.
  subst st. rewrite rx_packet_9. cbn [snd packet]. auto.
Qed.

(** X12.  Whenever [main] enters the polling loop, the decoder stands at a
    frame boundary (state 1) with [SetRange] as the last kind latched, both
    command frames have been written, and nothing has been printed: polling
    never starts in the middle of a frame. *)
Theorem polling_starts_at_frame_boundary
    (clock : list Z) (link : list (option byte))
    (ref_time : Z) (clock' : list Z) (w : world) :
  main_init clock (world0 link) = Steady ref_time clock' w ->
  rxstate (dec w) = 1 /\ packet (dec w) = SetRange
  /\ link_out w = [abc_off_buf; set_range_10000_buf]
  /\ stdout w = [] /\ stderr w = []
  /\ fst (main clock (world0 link)) = None.
Proof.
  intros M.
  assert (X : fst (main clock (world0 link)) = None).
  { unfold main. rewrite M. reflexivity. }
  unfold main_init in M.
  destruct clock as [| t0 c]; [discriminate M |].
  pose proof (wait_response_spec ABCOff t0 c (abc_off (world0 link))) as S1.
  destruct (wait_response ABCOff t0 c (abc_off (world0 link)))
    as [c1 w1 | c1 w1 | w1]; try discriminate M.
  destruct S1 as ((A1 & B1 & C1 & D1) & _).
  destruct c1 as [| t1 c1]; [discriminate M |].
  assert (I : range_buf_inv (range_buf w1))
    by (rewrite D1; apply range_buf_inv_init).
  destruct (set_range_10000 w1 I) as (A2 & B2 & C2). cbv zeta in *.
  pose proof (wait_response_spec SetRange t1 c1 (snd (set_range 10000 w1)))
    as S2.
  destruct (wait_response SetRange t1 c1 (snd (set_range 10000 w1)))
    as [c2 w2 | c2 w2 | w2] eqn:W2; try discriminate M.
  destruct S2 as ((A3 & B3 & C3 & _) & _).
  destruct (wait_response_acked_state SetRange t1 c1 c2 _ w2
              ltac:(discriminate) W2) as [S P].
  destruct c2 as [| t2 c2]; [discriminate M |].
  injection M as _ _ <-.
  rewrite A3, B3, C3, A2, B2, C2, A1, B1, C1. repeat split; assumption.
Qed.

Lemma polling_starts_at_frame_boundary_witness :
  let w := {| dec := {| rxstate := 1; checksum := 0xff; byte3 := 1;
                        packet := SetRange; co2_level := -1 |};
              link_in := map Some frame_420;
              link_out := [abc_off_buf; set_range_10000_buf];
              range_buf := set_range_10000_buf;
              stdout := [];
              stderr := [] |} in
  main_init (repeat 0 30)
            (world0 (map Some (ack_abc_off ++ ack_set_range ++ frame_420)))
  = Steady 0 (repeat 0 9) w
  /\ rxstate (dec w) = 1 /\ packet (dec w) = SetRange
  /\ fst (main (repeat 0 30)
             (world0 (map Some (ack_abc_off ++ ack_set_range ++ frame_420))))
     = None.
Proof.
  intros w.
  assert (M : main_init (repeat 0 30)
                (world0 (map Some (ack_abc_off ++ ack_set_range ++ frame_420)))
              = Steady 0 (repeat 0 9) w)
    by (vm_compute; reflexivity).
  destruct (polling_starts_at_frame_boundary _ _ _ _ _ M)
    as (S & P & _ & _ & _ & X).
  split; [exact M | split; [exact S | split; [exact P | exact X]]].
Defined.

(** ** Printed readings come from valid frames *)

(** X13.  Although the measurement is stored before the checksum is
    examined, at a [CO2Level] return (the only moment [main] reads it) it
    is the reading of a frame that passed: the last nine bytes read are
    FF 86 hi lo .. .. .. .. ck, they add up to 0xFF modulo 256, and the
    measurement is 256*hi + lo of that very frame. *)
Theorem co2_return_is_reading_of_valid_frame
    (rds : list (option byte)) (rd : option byte) :
  let d := snd (rx_run rds rx_init) in
  fst (rx_packet rd d) = CO2Level ->
  exists pre hi lo p4 p5 p6 p7 ck,
    bytes_of (rds ++ [rd]) = pre ++ [xff; x86; hi; lo; p4; p5; p6; p7; ck]
    /\ checksum_ok [xff; x86; hi; lo; p4; p5; p6; p7; ck] = true
    /\ co2_level (snd (rx_packet rd d)) = 256 * uchar hi + uchar lo.
Proof.
  intros d R.
  assert (NN : fst (rx_packet rd d) <> Packet.None)
    by (rewrite R; discriminate).
  destruct (rx_packet_returns rd d NN) as (b & -> & S9 & C & P).
  rewrite R in P. symmetry in P.
  destruct (rx_run_follows rds) as (pre & part & B & T & Hs). fold d in T, Hs.
  rewrite bytes_of_app, B. cbn [bytes_of flat_map app].
  destruct d as [st ck y pk lv]. cbn [rxstate packet checksum] in S9, P, C, Hs.
  subst st pk. rewrite rx_packet_9. cbn [snd co2_level].
  destruct part as [| b0 [| b1 [| b2 [| b3 rest]]]]; cbn [tracks rxstate] in T;
    try lia; try (destruct T as (_ & T & _); lia).
  destruct T as (-> & S & L & K & V). cbn [packet co2_level] in K, V.
  symmetry in K. apply classify_CO2Level, uchar_x86 in K. subst b1.
  destruct rest as [| r0 [| r1 [| r2 [| r3 [| r4 rest]]]]];
    cbn [List.length] in S, L; try lia.
  exists pre, b2, b3, r0, r1, r2, r3, b. rewrite <- app_assoc.
  split; [reflexivity |]. split; [| apply V; reflexivity].
  unfold checksum_ok. apply Z.eqb_eq. rewrite <- C.
  rewrite (Hs ltac:(discriminate)). unfold frame_sum. cbn [fold_right].
  rewrite Z.add_mod_idemp_l by lia. f_equal. ring.
Qed.

Lemma co2_return_is_reading_of_valid_frame_witness :
  exists pre hi lo p4 p5 p6 p7 ck,
    bytes_of (map Some (frame_corrupt ++ firstn 8 frame_800) ++ [Some x57])
    = pre ++ [xff; x86; hi; lo; p4; p5; p6; p7; ck]
    /\ checksum_ok [xff; x86; hi; lo; p4; p5; p6; p7; ck] = true
    /\ co2_level
         (snd (rx_packet (Some x57)
                 (snd (rx_run (map Some (frame_corrupt ++ firstn 8 frame_800))
                         rx_init))))
       = 256 * uchar hi + uchar lo.
Proof.
  apply (co2_return_is_reading_of_valid_frame
           (map Some (frame_corrupt ++ firstn 8 frame_800)) (Some x57)).
  reflexivity.
Defined.
